(** * VoiceGen: the voice-synthesis session of the text-to-voice page

    A shallow embedding of the session logic of the application:

    - [src/app/page.tsx]: [generateBrowserVoice] (voice resolution,
      prosody clamping, the speech request) and [generateVoice] (guard,
      progress, artifact construction, bounded history);
    - [src/lib/audio-utils.ts]: [buildVoiceRequest];
    - [src/components/VoiceHistory.tsx]: [deleteFromHistory];
    - [src/unnamed/part_002], the [AudioPlayer] component:
      [togglePlayPause] and the handlers of the audio element's events.

    Conventions of the embedding.

    - A JavaScript string is a [string]: a sequence of code units, here
      the code units below 256 (Basic Latin and Latin-1).  [trim],
      [toLowerCase], [includes] and [substring] are written out on that
      range as ECMAScript defines them.
    - A JavaScript number is a [number]: NaN, the two infinities, or a
      finite value carried as a rational.  The code under study only
      compares and selects numbers (Math.min, Math.max, truthiness), which
      is exact on that carrier; both zeros are the rational 0.
    - React state is a record; a handler is a function from the state it
      was rendered with to the next state.  What a handler does to the
      host (timers, the speech engine, object URLs, alerts) is appended to
      an effect log, oldest first.
    - An [async] function is cut at its [await]s: one function per
      segment, the values captured by the closure carried in a [Flight]. *)

From Stdlib Require Import ZArith QArith Lia List Bool Ascii String DecimalString DecimalN Sorted.
From stdpp Require Import base strings gmap.
Import ListNotations.

Local Open Scope string_scope.
Local Open Scope list_scope.

(** ** JavaScript values *)

Module JS.

(** Exceptions the code can raise or reject with. *)
Inductive error :=
| TypeError (msg : string)
| Error (msg : string).

(** A computation that returns or throws. *)
Inductive result (A : Type) :=
| Ok (a : A)
| Throw (e : error).
Arguments Ok {A} a.
Arguments Throw {A} e.

Definition bind {A B} (r : result A) (k : A -> result B) : result B :=
  match r with
  | Ok a => k a
  | Throw e => Throw e
  end.

(** *** Strings *)

Definition code (c : ascii) : N := N_of_ascii c.

(** WhiteSpace and LineTerminator code units below 256: TAB, LF, VT, FF,
    CR, SPACE and NO-BREAK SPACE. *)
Definition isWhiteSpace (c : ascii) : bool :=
  let n := code c in
  ((9 <=? n) && (n <=? 13) || (n =? 32) || (n =? 160))%N.

Fixpoint trimStart (s : string) : string :=
  match s with
  | EmptyString => EmptyString
  | String c s' => if isWhiteSpace c then trimStart s' else s
  end.

(** [trimEnd] keeps a character when it is not white space or when
    something remains after it. *)
Fixpoint trimEnd (s : string) : string :=
  match s with
  | EmptyString => EmptyString
  | String c s' =>
      match trimEnd s' with
      | EmptyString => if isWhiteSpace c then EmptyString else String c EmptyString
      | t => String c t
      end
  end.

Definition trim (s : string) : string := trimEnd (trimStart s).

(** The strings [trim] empties: white space only. *)
Fixpoint allWhiteSpace (s : string) : bool :=
  match s with
  | EmptyString => true
  | String c s' => isWhiteSpace c && allWhiteSpace s'
  end.

(** A string is falsy exactly when it is empty. *)
Definition truthy_string (s : string) : bool :=
  match s with
  | EmptyString => false
  | String _ _ => true
  end.

(** Lower-casing of one code unit: A-Z, and the Latin-1 capitals
    U+00C0..U+00DE without the multiplication sign U+00D7. *)
Definition lower_char (c : ascii) : ascii :=
  let n := code c in
  if ((65 <=? n) && (n <=? 90))%N then ascii_of_N (n + 32)
  else if ((192 <=? n) && (n <=? 222) && negb (n =? 215))%N then ascii_of_N (n + 32)
  else c.

Fixpoint toLowerCase (s : string) : string :=
  match s with
  | EmptyString => EmptyString
  | String c s' => String (lower_char c) (toLowerCase s')
  end.

(** [s.includes(sub)]: [sub] occurs in [s] at some position. *)
Fixpoint includes (s sub : string) : bool :=
  String.prefix sub s
  || match s with
     | EmptyString => false
     | String _ s' => includes s' sub
     end.

(** [s.substring(0, n)]. *)
Definition substring0 (n : nat) (s : string) : string := String.substring 0 n s.

(** *** Numbers *)

Inductive number :=
| NaN
| NegInf
| Fin (q : Q)
| PosInf.

(** [a < b] on numbers; false when either is NaN. *)
Definition lt (a b : number) : bool :=
  match a, b with
  | NaN, _ | _, NaN => false
  | NegInf, NegInf => false
  | NegInf, _ => true
  | _, NegInf => false
  | PosInf, _ => false
  | Fin _, PosInf => true
  | Fin x, Fin y => negb (Qle_bool y x)
  end.

Definition is_nan (a : number) : bool :=
  match a with NaN => true | _ => false end.

(** [Math.min] and [Math.max] of two arguments. *)
Definition Math_min (a b : number) : number :=
  if is_nan a || is_nan b then NaN else if lt b a then b else a.

Definition Math_max (a b : number) : number :=
  if is_nan a || is_nan b then NaN else if lt a b then b else a.

(** A number is falsy when it is NaN or zero. *)
Definition truthy (a : number) : bool :=
  match a with
  | NaN => false
  | Fin q => negb (Qeq_bool q 0)
  | NegInf | PosInf => true
  end.

(** [a || d] on numbers. *)
Definition or_default (a d : number) : number := if truthy a then a else d.

(** [a || d] where [a] may be [undefined] (an optional field). *)
Definition or_default_opt (a : option number) (d : number) : number :=
  match a with
  | Some x => or_default x d
  | None => d
  end.


(** *** Property reads on an object literal

    [o[k]] on an object written as a literal first looks at the own
    properties of [o], then at [Object.prototype].  The members every
    object inherits from there are functions, and [__proto__] is an
    object: all truthy, none an array. *)
Definition object_prototype_members : list string :=
  [ "constructor"; "__defineGetter__"; "__defineSetter__"; "hasOwnProperty";
    "__lookupGetter__"; "__lookupSetter__"; "isPrototypeOf";
    "propertyIsEnumerable"; "toString"; "valueOf"; "__proto__";
    "toLocaleString" ].

Definition inherited (k : string) : bool :=
  existsb (String.eqb k) object_prototype_members.

(** What reading a key of a [Record<string, string[]>] literal yields. *)
Inductive property :=
| Own (l : list string)
| Inherited
| Undefined.

Definition get (o : gmap string (list string)) (k : string) : property :=
  match o !! k with
  | Some l => Own l
  | None => if inherited k then Inherited else Undefined
  end.

End JS.

(** ** The speech engine: [generateBrowserVoice] ([src/app/page.tsx]) *)

Module Speech.
Import JS.

(** [VoiceSettings] of [page.tsx]. *)
Record VoiceSettings := {
  voice : string;
  speed : number;
  pitch : number;
  stability : number;
  clarity : number;
}.

(** A voice of the host, [SpeechSynthesisVoice]; the code reads its
    [name] only. *)
Record SpeechSynthesisVoice := {
  name : string;
  voiceURI : string;
}.

(** [SpeechSynthesisUtterance], with the fields the code assigns. *)
Record Utterance := {
  u_text : string;
  u_voice : option SpeechSynthesisVoice;
  u_rate : number;
  u_pitch : number;
  u_volume : number;
}.

(** Line 65: the name fragments preferred for each voice of the catalog. *)
Definition voiceMap : gmap string (list string) :=
  list_to_map
    [ ("rachel", ["female"; "zira"; "karen"; "samantha"]);
      ("domi", ["female"; "hazel"; "victoria"; "allison"]);
      ("bella", ["female"; "eva"; "fiona"; "susan"]);
      ("antoni", ["male"; "david"; "daniel"; "alex"]);
      ("elli", ["female"; "mark"; "kate"; "veena"]);
      ("josh", ["male"; "tom"; "fred"; "josh"]);
      ("arnold", ["male"; "paul"; "oliver"; "ralph"]);
      ("adam", ["male"; "mark"; "aaron"; "bruce"]);
      ("sam", ["male"; "david"; "sam"; "junior"]) ].

(** [voiceMap[settings.voice] || ['female']]: an array (own entry or the
    default), or a truthy value that is not an array. *)
Inductive preferred :=
| Fragments (l : list string)
| NotAnArray.

Definition preferredVoices (voiceId : string) : preferred :=
  match get voiceMap voiceId with
  | Own l => Fragments l
  | Inherited => NotAnArray
  | Undefined => Fragments ["female"]
  end.

(** [voice.name.toLowerCase().includes(pref.toLowerCase())]. *)
Definition nameHas (v : SpeechSynthesisVoice) (pref : string) : bool :=
  includes (toLowerCase (name v)) (toLowerCase pref).

(** Lines 79-83: [voices.find(voice => preferredVoices.some(...))].  The
    callback runs on the first voice, if there is one; calling [some] on
    a value that has no such method throws there. *)
Definition findPreferred (p : preferred) (voices : list SpeechSynthesisVoice)
  : result (option SpeechSynthesisVoice) :=
  match p with
  | Fragments l => Ok (List.find (fun v => existsb (nameHas v) l) voices)
  | NotAnArray =>
      match voices with
      | [] => Ok None
      | _ :: _ => Throw (TypeError "preferredVoices.some is not a function")
      end
  end.

(** Line 87. *)
Definition isFemale (voiceId : string) : bool :=
  existsb (String.eqb voiceId) ["rachel"; "domi"; "bella"; "elli"].

(** Lines 88-92: the predicate of the gender fallback. *)
Definition genderMatch (female : bool) (v : SpeechSynthesisVoice) : bool :=
  let n := toLowerCase (name v) in
  if female then includes n "female" || includes n "woman"
  else includes n "male" || includes n "man".

(** Lines 96-98. *)
Definition firstVoice (voices : list SpeechSynthesisVoice)
  : option SpeechSynthesisVoice :=
  match voices with
  | [] => None
  | v :: _ => Some v
  end.

Definition orElse {A} (a b : option A) : option A :=
  match a with
  | Some x => Some x
  | None => b
  end.

(** Lines 77-98: the voice the utterance gets, [None] when it is left
    to the engine's default. *)
Definition selectVoice (voiceId : string) (voices : list SpeechSynthesisVoice)
  : result (option SpeechSynthesisVoice) :=
  bind (findPreferred (preferredVoices voiceId) voices) (fun byName =>
  let byGender := orElse byName (List.find (genderMatch (isFemale voiceId)) voices) in
  Ok (orElse byGender (firstVoice voices))).

(** Lines 105-107. *)
Definition rateOf (s : VoiceSettings) : number :=
  Math_max (Fin 0.5) (Math_min (Fin 2.0) (or_default (speed s) (Fin 1.0))).

Definition pitchOf (s : VoiceSettings) : number :=
  Math_max (Fin 0.5) (Math_min (Fin 2.0) (or_default (pitch s) (Fin 1.0))).

(** The host as the promise executor finds it: whether [window] has
    [speechSynthesis], and what [getVoices()] returns. *)
Record Host := {
  speechSupported : bool;
  getVoices : list SpeechSynthesisVoice;
}.

(** Lines 52-107: the synchronous part of the executor, up to the
    utterance being ready.  [Throw] is the promise rejected, by [reject]
    or by an exception raised in the executor. *)
Definition buildUtterance (h : Host) (text : string) (s : VoiceSettings)
  : result Utterance :=
  if negb (speechSupported h) then
    Throw (Error "Speech synthesis not supported in this browser")
  else
    bind (selectVoice (voice s) (getVoices h)) (fun selected =>
    Ok {| u_text := text; u_voice := selected;
          u_rate := rateOf s; u_pitch := pitchOf s; u_volume := Fin 1.0 |}).

End Speech.

(** ** The page: [HomePage] ([src/app/page.tsx]) *)

(** [GeneratedAudio], the artifact of one generation. *)
Module Audio.
Record GeneratedAudio := {
  id : string;
  text : string;
  voice : string;
  audioUrl : string;
  duration : JS.number;
  createdAt : N;
  settings : Speech.VoiceSettings;
}.
End Audio.

Module Page.
Import JS Speech.
Export Audio(GeneratedAudio).

(** The [useState] cells of [HomePage]. *)
Record State := {
  text : string;
  isGenerating : bool;
  generationProgress : number;
  currentAudio : option GeneratedAudio;
  audioHistory : list GeneratedAudio;
  voiceSettings : VoiceSettings;
}.

(** The initial render (lines 35-46). *)
Definition initialState : State :=
  {| text := ""; isGenerating := false; generationProgress := Fin 0;
     currentAudio := None; audioHistory := [];
     voiceSettings := {| voice := "rachel"; speed := Fin 1.0; pitch := Fin 1.0;
                         stability := Fin 0.75; clarity := Fin 0.75 |} |}.

Definition setText (t : string) (st : State) : State :=
  {| text := t; isGenerating := isGenerating st;
     generationProgress := generationProgress st;
     currentAudio := currentAudio st; audioHistory := audioHistory st;
     voiceSettings := voiceSettings st |}.

Definition setIsGenerating (b : bool) (st : State) : State :=
  {| text := text st; isGenerating := b;
     generationProgress := generationProgress st;
     currentAudio := currentAudio st; audioHistory := audioHistory st;
     voiceSettings := voiceSettings st |}.

Definition setCurrentAudio (a : option GeneratedAudio) (st : State) : State :=
  {| text := text st; isGenerating := isGenerating st;
     generationProgress := generationProgress st;
     currentAudio := a; audioHistory := audioHistory st;
     voiceSettings := voiceSettings st |}.

(** [setAudioHistory(prev => f prev)]. *)
Definition setAudioHistory (f : list GeneratedAudio -> list GeneratedAudio)
  (st : State) : State :=
  {| text := text st; isGenerating := isGenerating st;
     generationProgress := generationProgress st;
     currentAudio := currentAudio st; audioHistory := f (audioHistory st);
     voiceSettings := voiceSettings st |}.

Definition setVoiceSettings (v : VoiceSettings) (st : State) : State :=
  {| text := text st; isGenerating := isGenerating st;
     generationProgress := generationProgress st;
     currentAudio := currentAudio st; audioHistory := audioHistory st;
     voiceSettings := v |}.

(** What a handler does to the host, in program order.  The two
    [console.log] lines of the utterance (lines 111 and 115) are not
    recorded. *)
Inductive effect :=
| Progress (p : number)            (* setGenerationProgress: the value shown *)
| SetInterval (ms : N)             (* progressInterval = setInterval(.., 200) *)
| ClearInterval                    (* clearInterval(progressInterval) *)
| SpeechCancel                     (* window.speechSynthesis.cancel() *)
| SpeakScheduled (u : Utterance)   (* setTimeout(() => speak(utterance), 100) *)
| CreateObjectURL (url : string)   (* URL.createObjectURL(audioBlob) *)
| RevokeObjectURL (url : string)   (* URL.revokeObjectURL(url) *)
| NewAudio (url : string)          (* new Audio(audioUrl) *)
| ConsoleError (msg : string)
| Alert (msg : string).

(** The page with its host-side bookkeeping: the state last rendered,
    the effects so far, and how many progress intervals are live. *)
Record Session := {
  state : State;
  log : list effect;
  liveIntervals : nat;
}.

Definition withState (f : State -> State) (s : Session) : Session :=
  {| state := f (state s); log := log s; liveIntervals := liveIntervals s |}.

Definition emit (es : list effect) (s : Session) : Session :=
  {| state := state s; log := log s ++ es; liveIntervals := liveIntervals s |}.

(** [setGenerationProgress(p)]: the cell and the value shown. *)
Definition setGenerationProgress (p : number) (s : Session) : Session :=
  emit [Progress p]
    {| state := {| text := text (state s); isGenerating := isGenerating (state s);
                   generationProgress := p;
                   currentAudio := currentAudio (state s);
                   audioHistory := audioHistory (state s);
                   voiceSettings := voiceSettings (state s) |};
       log := log s; liveIntervals := liveIntervals s |}.

Definition startInterval (ms : N) (s : Session) : Session :=
  {| state := state s; log := log s ++ [SetInterval ms];
     liveIntervals := S (liveIntervals s) |}.

Definition clearInterval (s : Session) : Session :=
  {| state := state s; log := log s ++ [ClearInterval];
     liveIntervals := Nat.pred (liveIntervals s) |}.

(** Lines 157-160, the updater the interval would run.  The code adds
    doubles: [sum prev] stands for the double [prev + Math.random() * 15]
    as the host computes it, and the updater passes it on as it is.
    [prev >= 90] is false for NaN. *)
Definition progressTick (sum : number -> number) (prev : number) : number :=
  if negb (is_nan prev) && negb (lt prev (Fin 90)) then prev else sum prev.

(** A suspended call of [generateVoice]: where it waits, and what its
    closure holds. *)
Inductive Flight :=
| AwaitSpeech (text : string) (settings : VoiceSettings) (u : Utterance)
| AwaitMetadata (text : string) (settings : VoiceSettings) (audioUrl : string).

(** How a segment of [generateVoice] ends. *)
Inductive outcome :=
| Returned                 (* the early [return] of line 149 *)
| Settled                  (* ran through [finally] *)
| Suspended (f : Flight).  (* waits at an [await] *)

(** Lines 190-192. *)
Definition catchBlock (e : error) (s : Session) : Session :=
  emit [ConsoleError "Voice generation failed:";
        Alert "Failed to generate voice. Please try again."] s.

(** Lines 193-196. *)
Definition finallyBlock (s : Session) : Session :=
  setGenerationProgress (Fin 0) (withState (setIsGenerating false) s).

(** Line 149. *)
Definition guard (st : State) : bool :=
  negb (truthy_string (trim (text st))) || isGenerating st.

(** Lines 148-168: the call of [generateVoice], up to the first [await]. *)
Definition generateVoice (h : Host) (s : Session) : Session * outcome :=
  if guard (state s) then (s, Returned)
  else
    let s := withState (setIsGenerating true) s in
    let s := setGenerationProgress (Fin 0) s in
    let s := startInterval 200 s in
    let s := clearInterval s in
    let s := setGenerationProgress (Fin 100) s in
    let text := text (state s) in
    let settings := voiceSettings (state s) in
    match buildUtterance h text settings with
    | Throw e => (finallyBlock (catchBlock e s), Settled)
    | Ok u => (emit [SpeechCancel; SpeakScheduled u] s,
               Suspended (AwaitSpeech text settings u))
    end.

(** Lines 114-131 and 169-175: the utterance ended; [url] is what
    [URL.createObjectURL] returns for the blob. *)
Definition onSpeechEnd (text : string) (settings : VoiceSettings) (url : string)
  (s : Session) : Session * outcome :=
  (emit [CreateObjectURL url; NewAudio url] s,
   Suspended (AwaitMetadata text settings url)).

(** Lines 133-136 and 190-196: the utterance failed with [code] while
    the call waits for it. *)
Definition onSpeechError (code : string) (s : Session) : Session * outcome :=
  let s := emit [ConsoleError "Speech error:"] s in
  (finallyBlock (catchBlock (Error ("Speech synthesis failed: " ++ code)%string) s),
   Settled).

(** Lines 133-136 when the promise is resolved already (the utterance
    had ended): the error goes to the console and [reject] does nothing. *)
Definition onSpeechErrorLate (s : Session) : Session :=
  emit [ConsoleError "Speech error:"] s.

(** [Date.now().toString()]. *)
Definition Date_now_toString (now : N) : string :=
  NilEmpty.string_of_uint (N.to_uint now).

(** Lines 177-185. *)
Definition newAudio (text : string) (settings : VoiceSettings) (url : string)
  (duration : number) (now created : N) : GeneratedAudio :=
  {| Audio.id := Date_now_toString now;
     Audio.text := (substring0 100 text
                    ++ (if (100 <? String.length text)%nat then "..." else ""))%string;
     Audio.voice := voice settings;
     Audio.audioUrl := url;
     Audio.duration := duration;
     Audio.createdAt := created;
     Audio.settings := settings |}.

(** Line 188, the updater of the history. *)
Definition keepLast10 (a : GeneratedAudio) (prev : list GeneratedAudio)
  : list GeneratedAudio :=
  a :: firstn 9 prev.

(** Lines 177-188 and 193-196: the audio element reported its metadata. *)
Definition onLoadedMetadata (text : string) (settings : VoiceSettings)
  (url : string) (duration : number) (now created : N) (s : Session)
  : Session * outcome :=
  let a := newAudio text settings url duration now created in
  let s := withState (setCurrentAudio (Some a)) s in
  let s := withState (setAudioHistory (keepLast10 a)) s in
  (finallyBlock s, Settled).

(** What a call that passes the guard does before it reaches the
    engine. *)
Definition preamble : list effect :=
  [Progress (Fin 0); SetInterval 200; ClearInterval; Progress (Fin 100)].

Definition failureReport : list effect :=
  [ConsoleError "Voice generation failed:";
   Alert "Failed to generate voice. Please try again."].

(** The promise of [generateVoice] is fulfilled on every path: the
    [catch] of line 190 takes every exception.  A failed attempt shows in
    the alert of line 192 and in nothing else. *)
Definition isAlert (e : effect) : bool :=
  match e with
  | Alert _ => true
  | _ => false
  end.

(** The effects of [after] that [before] does not have yet. *)
Definition newEffects (before after : Session) : list effect :=
  skipn (length (log before)) (log after).

Definition reportsFailure (before after : Session) : bool :=
  existsb isAlert (newEffects before after).

End Page.

(** ** The history panel: [VoiceHistory] ([src/components/VoiceHistory.tsx]) *)

Module VoiceHistory.
Import JS Page.

(** Lines 63-72.  The component gets [history] as a prop (the page's
    [audioHistory]) and has no callback to change it; the function
    returns nothing. *)
Definition deleteFromHistory (audioId : string) (s : Session) : Session :=
  match List.find (fun a => String.eqb (Audio.id a) audioId)
                  (audioHistory (state s)) with
  | Some audio => emit [RevokeObjectURL (Audio.audioUrl audio)] s
  | None => s
  end.

(** Line 109: a click on the [k]-th entry calls [onSelect(audio)], which
    the page binds to [setCurrentAudio]. *)
Definition select (k : nat) (s : Session) : Session :=
  match nth_error (audioHistory (state s)) k with
  | Some audio => withState (setCurrentAudio (Some audio)) s
  | None => s
  end.

End VoiceHistory.

(** ** The request builder: [buildVoiceRequest] ([src/lib/audio-utils.ts]) *)

Module AudioUtils.
Import JS.

(** [VoiceSettings] of [audio-utils.ts]: every field is optional. *)
Record VoiceSettings := {
  voice : option string;
  speed : option number;
  pitch : option number;
  stability : option number;
  clarity : option number;
}.

(** The part of the request that is computed from the settings (lines
    219-226); the cleaned text and the constant fields are left out. *)
Record VoiceRequest := {
  r_voice : string;
  r_stability : number;
  r_similarity_boost : number;
  r_style : number;
  r_use_speaker_boost : bool;
}.

Definition buildVoiceRequest (settings : VoiceSettings) : VoiceRequest :=
  {| r_voice := match voice settings with
                | Some v => if truthy_string v then v else "rachel"
                | None => "rachel"
                end;
     r_stability :=
       Math_max (Fin 0) (Math_min (Fin 1) (or_default_opt (stability settings) (Fin 0.75)));
     r_similarity_boost :=
       Math_max (Fin 0) (Math_min (Fin 1) (or_default_opt (clarity settings) (Fin 0.75)));
     r_style := Fin 0.0;
     r_use_speaker_boost := true |}.

End AudioUtils.

(** ** The player: [AudioPlayer] ([src/unnamed/part_002], lines 231-515) *)

Module AudioPlayer.
Import JS.

(** The [useState] cells of the component. *)
Record State := {
  isPlaying : bool;
  currentTime : number;
  volume : number;
  playbackRate : number;
  isLoading : bool;
}.

(** The first render of the component. *)
Definition initialState : State :=
  {| isPlaying := false; currentTime := Fin 0; volume := Fin 0.8;
     playbackRate := Fin 1; isLoading := true |}.

(** What the component asks of the audio element. *)
Inductive request :=
| SetSrc (url : string)
| SetVolume (v : number)
| SetPlaybackRate (r : number)
| SetCurrentTime (t : number)
| Play
| Pause.

(** The component with its element: [mounted] is [audioRef.current]
    being set, [requests] what the element was asked, oldest first. *)
Record Player := {
  state : State;
  mounted : bool;
  requests : list request;
}.

Definition withState (f : State -> State) (p : Player) : Player :=
  {| state := f (state p); mounted := mounted p; requests := requests p |}.

Definition ask (rs : list request) (p : Player) : Player :=
  {| state := state p; mounted := mounted p; requests := requests p ++ rs |}.

Definition setIsPlaying (b : bool) (st : State) : State :=
  {| isPlaying := b; currentTime := currentTime st; volume := volume st;
     playbackRate := playbackRate st; isLoading := isLoading st |}.

Definition setCurrentTime (t : number) (st : State) : State :=
  {| isPlaying := isPlaying st; currentTime := t; volume := volume st;
     playbackRate := playbackRate st; isLoading := isLoading st |}.

Definition setVolume (v : number) (st : State) : State :=
  {| isPlaying := isPlaying st; currentTime := currentTime st; volume := v;
     playbackRate := playbackRate st; isLoading := isLoading st |}.

Definition setPlaybackRate (r : number) (st : State) : State :=
  {| isPlaying := isPlaying st; currentTime := currentTime st;
     volume := volume st; playbackRate := r; isLoading := isLoading st |}.

Definition setIsLoading (b : bool) (st : State) : State :=
  {| isPlaying := isPlaying st; currentTime := currentTime st;
     volume := volume st; playbackRate := playbackRate st; isLoading := b |}.

(** The effect of lines 271-319: runs when the selected audio (or the
    volume or the rate) changes. *)
Definition bindAudio (audio : Audio.GeneratedAudio) (p : Player) : Player :=
  if mounted p then
    let p := ask [SetSrc (Audio.audioUrl audio); SetVolume (volume (state p));
                  SetPlaybackRate (playbackRate (state p))] p in
    withState (fun st => setIsPlaying false (setCurrentTime (Fin 0) (setIsLoading true st))) p
  else p.

(** The listeners the effect registers. *)
Definition handleLoadedData (p : Player) : Player := withState (setIsLoading false) p.
Definition handleTimeUpdate (t : number) (p : Player) : Player := withState (setCurrentTime t) p.
Definition handleEnded (p : Player) : Player :=
  withState (fun st => setCurrentTime (Fin 0) (setIsPlaying false st)) p.
Definition handlePlay (p : Player) : Player := withState (setIsPlaying true) p.
Definition handlePause (p : Player) : Player := withState (setIsPlaying false) p.

(** Lines 321-331: the element is asked; the flag follows from the
    element's [play] and [pause] events. *)
Definition togglePlayPause (p : Player) : Player :=
  if negb (mounted p) || isLoading (state p) then p
  else if isPlaying (state p) then ask [Pause] p
  else ask [Play] p.

Definition stop (p : Player) : Player :=
  if negb (mounted p) then p
  else withState (fun st => setIsPlaying false (setCurrentTime (Fin 0) st))
         (ask [Pause; SetCurrentTime (Fin 0)] p).

Definition seek (time : number) (p : Player) : Player :=
  if negb (mounted p) || isLoading (state p) then p
  else withState (setCurrentTime time) (ask [SetCurrentTime time] p).

(** The requests that start or stop playback. *)
Definition isPlayRequest (r : request) : bool :=
  match r with
  | Play | Pause => true
  | _ => false
  end.

(** Any number of calls. *)
Fixpoint times {A} (n : nat) (f : A -> A) (a : A) : A :=
  match n with
  | O => a
  | S n' => times n' f (f a)
  end.

Definition mountedPlayer : Player :=
  {| state := initialState; mounted := true; requests := [] |}.

End AudioPlayer.

(** ** Sessions as event sequences

    The page between two events: the session, and the calls of
    [generateVoice] that wait at an [await]. *)

Module Run.
Import JS Speech Page.

Record Machine := {
  session : Session;
  flights : list Flight;
}.

Definition initial : Machine :=
  {| session := {| state := initialState; log := []; liveIntervals := 0 |};
     flights := [] |}.

(** What can happen next: the user acts, or the host calls back. *)
Inductive event :=
| EditText (t : string)                 (* TextInput onChange *)
| EditSettings (v : VoiceSettings)      (* VoiceSelector, AudioControls *)
| SelectEntry (k : nat)                 (* click on a history entry *)
| DeleteEntry (audioId : string)        (* the remove button *)
| Generate (h : Host)                   (* the Generate button *)
| Tick (sum : number -> number)         (* a live interval fires *)
| SpeechEnded (i : nat) (url : string)  (* utterance.onend for flight i *)
| SpeechFailed (i : nat) (code : string)          (* utterance.onerror *)
| MetadataLoaded (i : nat) (duration : number) (now created : N).

Definition onSession (f : Session -> Session) (m : Machine) : Machine :=
  {| session := f (session m); flights := flights m |}.

(** A new call: it waits, or it is over. *)
Definition started (r : Session * outcome) (m : Machine) : Machine :=
  match snd r with
  | Suspended f => {| session := fst r; flights := flights m ++ [f] |}
  | _ => {| session := fst r; flights := flights m |}
  end.

(** Flight [i] went on: it waits again, or it is over. *)
Definition resumed (i : nat) (r : Session * outcome) (m : Machine) : Machine :=
  match snd r with
  | Suspended f => {| session := fst r; flights := <[i := f]> (flights m) |}
  | _ => {| session := fst r; flights := delete i (flights m) |}
  end.

Definition step (m : Machine) (e : event) : Machine :=
  match e with
  | EditText t => onSession (withState (setText t)) m
  | EditSettings v => onSession (withState (setVoiceSettings v)) m
  | SelectEntry k => onSession (VoiceHistory.select k) m
  | DeleteEntry audioId => onSession (VoiceHistory.deleteFromHistory audioId) m
  | Generate h => started (generateVoice h (session m)) m
  | Tick sum =>
      match liveIntervals (session m) with
      | O => m
      | S _ =>
          onSession (fun s =>
            setGenerationProgress (progressTick sum (generationProgress (state s))) s) m
      end
  | SpeechEnded i url =>
      match flights m !! i with
      | Some (AwaitSpeech text settings _) =>
          resumed i (onSpeechEnd text settings url (session m)) m
      | _ => m
      end
  | SpeechFailed i code =>
      match flights m !! i with
      | Some (AwaitSpeech _ _ _) => resumed i (onSpeechError code (session m)) m
      | Some (AwaitMetadata _ _ _) => onSession onSpeechErrorLate m
      | None => m
      end
  | MetadataLoaded i duration now created =>
      match flights m !! i with
      | Some (AwaitMetadata text settings url) =>
          resumed i (onLoadedMetadata text settings url duration now created (session m)) m
      | _ => m
      end
  end.

Definition run (m : Machine) (es : list event) : Machine := fold_left step es m.

(** The machines a session can be in. *)
Inductive reachable : Machine -> Prop :=
| reachable_initial : reachable initial
| reachable_step m e : reachable m -> reachable (step m e).

(** What holds of every machine a session can be in (see
    [reachable_invariant]). *)
Record invariant (m : Machine) : Prop := {
  inv_single : (length (flights m) <= 1)%nat;
  inv_flag : flights m <> [] -> isGenerating (state (session m)) = true;
  inv_timers : liveIntervals (session m) = 0%nat;
  inv_bound : (length (audioHistory (state (session m))) <= 10)%nat;
}.

(** The values [setGenerationProgress] was called with, in order. *)
Fixpoint progressValues (l : list effect) : list number :=
  match l with
  | [] => []
  | Progress p :: l' => p :: progressValues l'
  | _ :: l' => progressValues l'
  end.

(** The object URLs released so far. *)
Fixpoint revoked (l : list effect) : list string :=
  match l with
  | [] => []
  | RevokeObjectURL u :: l' => u :: revoked l'
  | _ :: l' => revoked l'
  end.

(** The effects that reach the speech engine. *)
Definition touchesEngine (e : effect) : bool :=
  match e with
  | SpeechCancel | SpeakScheduled _ => true
  | _ => false
  end.

End Run.

(** ** Sessions used as inputs *)

Module Fixtures.
Import JS Speech Page Run.

Definition named (n : string) : SpeechSynthesisVoice :=
  {| name := n; voiceURI := ("urn:voice:" ++ n)%string |}.


Definition host1 : Host :=
  {| speechSupported := true;
     getVoices := [named "Alex"; named "Samantha"] |}.

(** The [k]-th generation of a session, from the text typed to the
    metadata of the audio element. *)
Definition generation (k : N) : list event :=
  let n := Date_now_toString k in
  [ EditText ("Text number " ++ n)%string;
    Generate host1;
    SpeechEnded 0 ("blob:" ++ n)%string;
    MetadataLoaded 0 (Fin 2) k k ].

Definition tenGenerations : list event :=
  flat_map generation [1; 2; 3; 4; 5; 6; 7; 8; 9; 10]%N.

(** A generation under way: the utterance is with the engine. *)
Definition inFlight : Machine := run initial [EditText "Hello"; Generate host1].

(** The URLs handed out by [URL.createObjectURL] so far. *)
Fixpoint created (l : list effect) : list string :=
  match l with
  | [] => []
  | CreateObjectURL u :: l' => u :: created l'
  | _ :: l' => created l'
  end.

Definition urls (m : Machine) : list string :=
  map Audio.audioUrl (audioHistory (state (session m))).

(** The utterance [generateBrowserVoice] builds for "Hello" on
    [host1] with the initial settings: "rachel" finds Samantha. *)
Definition helloUtterance : Utterance :=
  {| u_text := "Hello"; u_voice := Some (named "Samantha");
     u_rate := Fin 1.0; u_pitch := Fin 1.0; u_volume := Fin 1.0 |}.


(** The claim of C10 read as a function: the preference list is
    ["female"], the gender fallback is the female one, then the first
    voice. *)
Definition selectVoice_as_claimed (voices : list SpeechSynthesisVoice)
  : option SpeechSynthesisVoice :=
  orElse (orElse (List.find (fun v => nameHas v "female") voices)
                 (List.find (genderMatch true) voices))
         (firstVoice voices).

End Fixtures.

(** ** The voice preview: [previewVoice] of [VoiceSelector]
    ([src/unnamed/part_002], lines 609-672) *)

Module Preview.
Import JS Speech.

(** Lines 625-635. *)
Definition voiceMap : gmap string (list string) :=
  list_to_map
    [ ("rachel", ["Microsoft Zira"; "Google UK English Female"; "Karen";
                  "Samantha"; "female"]);
      ("domi", ["Microsoft Hazel"; "Google US English Female"; "Victoria";
                "Allison"; "female"]);
      ("bella", ["Microsoft Eva"; "Google UK English Female"; "Fiona";
                 "Susan"; "female"]);
      ("antoni", ["Microsoft David"; "Google US English Male"; "Daniel";
                  "Alex"; "male"]);
      ("elli", ["Microsoft Mark"; "Google UK English Female"; "Kate";
                "Veena"; "female"]);
      ("josh", ["Microsoft Zira"; "Google US English Male"; "Tom"; "Fred";
                "male"]);
      ("arnold", ["Microsoft Paul"; "Google UK English Male"; "Oliver";
                  "Ralph"; "male"]);
      ("adam", ["Microsoft Mark"; "Google US English Male"; "Aaron"; "Bruce";
                "male"]);
      ("sam", ["Microsoft David"; "Google US English Male"; "Sam"; "Junior";
               "male"]) ].

(** Line 638. *)
Definition preferredVoices (voiceId : string) : preferred :=
  match get voiceMap voiceId with
  | Own l => Fragments l
  | Inherited => NotAnArray
  | Undefined => Fragments ["female"]
  end.

(** Lines 647-648. *)
Definition isFemale (fragments : list string) (voiceId : string) : bool :=
  existsb (String.eqb "female") fragments
  || existsb (String.eqb voiceId) ["rachel"; "domi"; "bella"; "elli"].

(** Lines 649-653. *)
Definition genderMatch (female : bool) (v : SpeechSynthesisVoice) : bool :=
  let n := toLowerCase (name v) in
  if female then includes n "female" else includes n "male".

(** Lines 637-658: the voice the preview utterance gets.  On a value
    that is not an array either [some] (line 640) or [includes] (line
    647) is called and throws; the [catch] of line 668 takes it. *)
Definition selectVoice (voiceId : string) (voices : list SpeechSynthesisVoice)
  : result (option SpeechSynthesisVoice) :=
  match preferredVoices voiceId with
  | Fragments l =>
      let byName := List.find (fun v => existsb (nameHas v) l) voices in
      Ok (orElse byName (List.find (genderMatch (isFemale l voiceId)) voices))
  | NotAnArray =>
      match voices with
      | [] => Throw (TypeError "preferredVoices.includes is not a function")
      | _ :: _ => Throw (TypeError "preferredVoices.some is not a function")
      end
  end.

End Preview.

(** ** Text helpers: the counters of [page.tsx] and the utilities of
    [src/lib/audio-utils.ts] *)

Module Text.
Import JS.

(** [s.split(/\s+/)]: the pieces between the runs of white space.  A
    run at either end leaves an empty piece there; the empty string
    gives one empty piece.  [inSeparator] tells that the character
    before was white space. *)
Fixpoint splitWhiteSpace (s : string) (inSeparator : bool) : list string :=
  match s with
  | EmptyString => [EmptyString]
  | String c s' =>
      if isWhiteSpace c then
        if inSeparator then splitWhiteSpace s' true
        else EmptyString :: splitWhiteSpace s' true
      else
        match splitWhiteSpace s' false with
        | piece :: pieces => String c piece :: pieces
        | [] => [String c EmptyString]
        end
  end.

(** [page.tsx] line 199 (and [TextInput], line 478):
    [text.trim().split(/\s+/).filter(word => word.length > 0).length]. *)
Definition wordCount (text : string) : nat :=
  length (List.filter (fun word => (0 <? String.length word)%nat)
            (splitWhiteSpace (trim text) false)).

(** [page.tsx] line 200. *)
Definition charCount (text : string) : nat := String.length text.

Definition isPunct (c : ascii) : bool :=
  Ascii.eqb c "." || Ascii.eqb c "!" || Ascii.eqb c "?".

Definition isUpper (c : ascii) : bool :=
  ((65 <=? code c) && (code c <=? 90))%N.

Definition startsWith (p : ascii -> bool) (s : string) : bool :=
  match s with
  | EmptyString => false
  | String c _ => p c
  end.

(** [.replace(/\s+/g, ' ')]: every run of white space becomes one
    space. *)
Fixpoint collapseWhiteSpace (s : string) (inRun : bool) : string :=
  match s with
  | EmptyString => EmptyString
  | String c s' =>
      if isWhiteSpace c then
        if inRun then collapseWhiteSpace s' true
        else String " " (collapseWhiteSpace s' true)
      else String c (collapseWhiteSpace s' false)
  end.

(** [.replace(/([.!?]){2,}/g, '$1')]: a run of two or more of [.!?] is
    replaced by what the group captured last, the final character of the
    run; so a mark goes exactly when another mark follows it. *)
Fixpoint squeezePunctuation (s : string) : string :=
  match s with
  | EmptyString => EmptyString
  | String c s' =>
      if isPunct c && startsWith isPunct s' then squeezePunctuation s'
      else String c (squeezePunctuation s')
  end.

(** [.replace(/([.!?])([A-Z])/g, '$1 $2')]: a space goes between a mark
    and a capital A-Z right after it. *)
Fixpoint spaceAfterPunctuation (s : string) : string :=
  match s with
  | EmptyString => EmptyString
  | String c s' =>
      if isPunct c && startsWith isUpper s'
      then String c (String " " (spaceAfterPunctuation s'))
      else String c (spaceAfterPunctuation s')
  end.

Fixpoint hasGreaterThan (s : string) : bool :=
  match s with
  | EmptyString => false
  | String c s' => Ascii.eqb c ">" || hasGreaterThan s'
  end.

(** [.replace(/<[^>]*>/g, '')]: from a [<] that has a [>] somewhere
    after it, everything up to the first such [>] goes.  [inTag] tells
    that the scan is inside such a stretch. *)
Fixpoint stripTags (s : string) (inTag : bool) : string :=
  match s with
  | EmptyString => EmptyString
  | String c s' =>
      if inTag then stripTags s' (negb (Ascii.eqb c ">"))
      else if Ascii.eqb c "<" && hasGreaterThan s' then stripTags s' true
      else String c (stripTags s' false)
  end.

(** [audio-utils.ts] lines 138-150. *)
Definition cleanTextForTTS (text : string) : string :=
  trim (stripTags
          (spaceAfterPunctuation
             (squeezePunctuation (collapseWhiteSpace text false)))
          false).

(** [audio-utils.ts] lines 63-71: the name [downloadAudio] saves
    under; [None] is the argument left out. *)
Definition finalFilename (filename : option string) : string :=
  let filename := match filename with Some f => f | None => "voice" end in
  if negb (includes filename ".") then (filename ++ ".mp3")%string
  else filename.

(** The name the history panel and the player save an artifact under
    ([VoiceHistory.tsx] line 57). *)
Definition artifactFilename (a : Audio.GeneratedAudio) : string :=
  ("voice-" ++ Audio.id a ++ ".mp3")%string.

(** All of the text is made of these characters. *)
Fixpoint allChars (p : ascii -> bool) (s : string) : bool :=
  match s with
  | EmptyString => true
  | String c s' => p c && allChars p s'
  end.

(** White space, if any, is the plain space. *)
Definition plainSpace (c : ascii) : bool :=
  negb (isWhiteSpace c) || Ascii.eqb c " ".

(** No [<] of the text has a [>] anywhere after it: the pattern
    [<[^>]*>] matches nowhere. *)
Fixpoint tagFree (s : string) : bool :=
  match s with
  | EmptyString => true
  | String c s' => negb (Ascii.eqb c "<" && hasGreaterThan s') && tagFree s'
  end.

End Text.

(** ** The text box: [TextInput] ([src/app/page.tsx], lines 393-575) *)

Module TextInput.
Import JS.

(** [s.substring(a, b)]: both ends are cut to the length, and swapped
    when they come in the wrong order. *)
Definition substring (s : string) (a b : nat) : string :=
  let a := Nat.min a (String.length s) in
  let b := Nat.min b (String.length s) in
  String.substring (Nat.min a b) (Nat.max a b - Nat.min a b) s.

(** [s.substring(a)]. *)
Definition substringFrom (s : string) (a : nat) : string :=
  substring s a (String.length s).

(** Lines 410-425: the new value [insertText] passes to [onChange];
    [selStart] and [selEnd] are the selection of the textarea. *)
Definition insertText (textToInsert value : string) (selStart selEnd : nat)
  : string :=
  (substring value 0 selStart ++ textToInsert ++ substringFrom value selEnd)%string.

(** Lines 436-449. *)
Definition formatted (format selectedText : string) : string :=
  if String.eqb format "emphasis" then ("*" ++ selectedText ++ "*")%string
  else if String.eqb format "pause" then (selectedText ++ "...")%string
  else if String.eqb format "slow" then ("[slow]" ++ selectedText ++ "[/slow]")%string
  else selectedText.

(** Lines 427-459: the new value [formatText] passes to [onChange],
    [None] when it does not call it (nothing is selected). *)
Definition formatText (format value : string) (selStart selEnd : nat)
  : option string :=
  let selectedText := substring value selStart selEnd in
  if truthy_string selectedText then
    Some (substring value 0 selStart ++ formatted format selectedText
          ++ substringFrom value selEnd)%string
  else None.

End TextInput.

(** ** The player's volume and speed ([src/unnamed/part_002], lines 350-363) *)

Module PlayerControls.
Import JS AudioPlayer.

(** [Object.is] on numbers, which React compares state and
    dependencies with. *)
Definition same (a b : number) : bool :=
  match a, b with
  | NaN, NaN | NegInf, NegInf | PosInf, PosInf => true
  | Fin x, Fin y => Qeq_bool x y
  | _, _ => false
  end.

(** Lines 350-356, and the effect of lines 271-319 that runs again
    when [volume], one of its dependencies, has changed. *)
Definition changeVolume (audio : Audio.GeneratedAudio) (vol : number)
  (p : Player) : Player :=
  let changed := negb (same (volume (state p)) vol) in
  let p := withState (setVolume vol) p in
  let p := if mounted p then ask [SetVolume vol] p else p in
  if changed then bindAudio audio p else p.

(** Lines 358-363, with the same effect. *)
Definition changePlaybackRate (audio : Audio.GeneratedAudio) (rate : number)
  (p : Player) : Player :=
  let changed := negb (same (playbackRate (state p)) rate) in
  let p := withState (setPlaybackRate rate) p in
  let p := if mounted p then ask [SetPlaybackRate rate] p else p in
  if changed then bindAudio audio p else p.

(** What can happen to the player showing [audio]: the user acts, or
    the audio element calls a listener back. *)
Inductive action :=
| Toggle
| Stop
| Seek (time : number)
| Volume (vol : number)
| Rate (rate : number)
| LoadedData
| TimeUpdate (time : number)
| Ended
| PlayEvent
| PauseEvent.

Definition act (audio : Audio.GeneratedAudio) (p : Player) (a : action)
  : Player :=
  match a with
  | Toggle => togglePlayPause p
  | Stop => stop p
  | Seek time => seek time p
  | Volume vol => changeVolume audio vol p
  | Rate rate => changePlaybackRate audio rate p
  | LoadedData => handleLoadedData p
  | TimeUpdate time => handleTimeUpdate time p
  | Ended => handleEnded p
  | PlayEvent => handlePlay p
  | PauseEvent => handlePause p
  end.

Definition isPlayEvent (a : action) : bool :=
  match a with
  | PlayEvent => true
  | _ => false
  end.

(** The player while it plays the selected audio. *)
Definition playing (p : Player) : Prop :=
  mounted p = true /\ isLoading (state p) = false /\ isPlaying (state p) = true.

End PlayerControls.

(** ** What a session keeps, beyond [Run.invariant] *)

Module Kept.
Import JS Speech Page Run.

(** The flag is up exactly while a call waits, and the progress cell
    shows 100 then and 0 otherwise. *)
Record flagged (m : Machine) : Prop := {
  flag_waits : isGenerating (state (session m)) = true -> flights m <> [];
  flag_progress :
    generationProgress (state (session m))
    = if isGenerating (state (session m)) then Fin 100 else Fin 0;
}.

(** The identifiers in the history. *)
Definition ids (s : Session) : list string :=
  map Audio.id (audioHistory (state s)).

(** The history ordered by creation time, newest first. *)
Definition newestFirst : list GeneratedAudio -> Prop :=
  Sorted (fun x y => (Audio.createdAt y <= Audio.createdAt x)%N).

(** The events that are not the [loadedmetadata] of the audio
    element. *)
Definition notMetadata (e : event) : bool :=
  match e with
  | MetadataLoaded _ _ _ _ => false
  | _ => true
  end.

(** The user edits the text or the settings. *)
Definition isEdit (e : event) : bool :=
  match e with
  | EditText _ | EditSettings _ => true
  | _ => false
  end.

(** A host without the speech API. *)
Definition silentHost (voices : list SpeechSynthesisVoice) : Host :=
  {| speechSupported := false; getVoices := voices |}.

End Kept.

(** * Properties *)

(** ** Numbers and strings *)

Module JSFacts.
Import JS.


Lemma lt_Fin_false x y : lt (Fin x) (Fin y) = false -> (y <= x)%Q.
Proof.
  simpl. intros H. apply negb_false_iff in H. now apply Qle_bool_iff.
Qed.




(** A value inside the range passes the clamp as it is. *)
Lemma clamp_id lo hi q :
  (lo <= q)%Q -> (q <= hi)%Q ->
  Math_max (Fin lo) (Math_min (Fin hi) (Fin q)) = Fin q \/
  (q == lo)%Q \/ (q == hi)%Q.
Proof.
  intros Hl Hh. unfold Math_min. cbn [is_nan orb].
  destruct (lt (Fin q) (Fin hi)) eqn:Hq.
  - unfold Math_max. cbn [is_nan orb].
    destruct (lt (Fin lo) (Fin q)) eqn:Hlq; [now left|].
    apply lt_Fin_false in Hlq. right; left. now apply Qle_antisym.
  - apply lt_Fin_false in Hq. right; right. now apply Qle_antisym.
Qed.

(** *** [trim] *)

Lemma trimEnd_empty s : trimEnd s = EmptyString <-> allWhiteSpace s = true.
Proof.
  induction s as [|c s IH]; simpl.
  - tauto.
  - destruct (trimEnd s) eqn:E.
    + destruct (isWhiteSpace c); simpl.
      * split; intros _; [now apply IH | reflexivity].
      * split; discriminate.
    + split; [discriminate|].
      intros H. apply andb_true_iff in H as [_ H]. apply IH in H. discriminate.
Qed.

Lemma trimStart_all s : allWhiteSpace s = true -> trimStart s = EmptyString.
Proof.
  induction s as [|c s IH]; simpl; trivial.
  intros H. apply andb_true_iff in H as [Hc Hs]. rewrite Hc. auto.
Qed.

Lemma allWhiteSpace_trimStart s :
  allWhiteSpace (trimStart s) = true -> allWhiteSpace s = true.
Proof.
  induction s as [|c s IH]; simpl; trivial.
  destruct (isWhiteSpace c) eqn:Hc; simpl; auto.
  rewrite Hc. simpl. discriminate.
Qed.

(** [text.trim()] is empty exactly for the texts made of white space
    only, the empty text among them. *)
Lemma trim_empty_iff s : trim s = EmptyString <-> allWhiteSpace s = true.
Proof.
  unfold trim. rewrite trimEnd_empty. split.
  - apply allWhiteSpace_trimStart.
  - intros H. now rewrite (trimStart_all s H).
Qed.

End JSFacts.

(** ** Voice resolution and prosody *)

Module SpeechFacts.
Import JS JSFacts Speech Fixtures.

Lemma find_ext' {A} (f g : A -> bool) (l : list A) :
  (forall a, f a = g a) -> List.find f l = List.find g l.
Proof.
  intros E. induction l as [|a l IH]; simpl; trivial. now rewrite E, IH.
Qed.

Lemma orElse_In {A} (a b : option A) (l : list A) v :
  (forall x, a = Some x -> In x l) -> (forall x, b = Some x -> In x l) ->
  orElse a b = Some v -> In v l.
Proof. destruct a; simpl; auto. Qed.

Lemma firstVoice_In voices v : firstVoice voices = Some v -> In v voices.
Proof. destruct voices; simpl; [discriminate|]. intros [= ->]. now left. Qed.

(** A voice id that names no member of [Object.prototype] gets a list
    of fragments: its entry of the map, or the default. *)
Lemma preferredVoices_fragments voiceId :
  inherited voiceId = false -> exists l, preferredVoices voiceId = Fragments l.
Proof.
  intros H. unfold preferredVoices, get. rewrite H.
  destruct (voiceMap !! voiceId); eauto.
Qed.

(** With a list of fragments the resolution is the three-stage search:
    by fragment, by gender, first of the list. *)
Lemma selectVoice_stages voiceId voices l :
  preferredVoices voiceId = Fragments l ->
  selectVoice voiceId voices =
  Ok (orElse (orElse (List.find (fun v => existsb (nameHas v) l) voices)
                     (List.find (genderMatch (isFemale voiceId)) voices))
             (firstVoice voices)).
Proof. intros H. unfold selectVoice. now rewrite H. Qed.

(** Outside the inherited names, resolution returns a voice of a
    non-empty list. *)
Lemma selectVoice_total voiceId voices :
  inherited voiceId = false -> voices <> [] ->
  exists v, selectVoice voiceId voices = Ok (Some v) /\ In v voices.
Proof.
  intros Hk Hne. destruct (preferredVoices_fragments voiceId Hk) as [l Hl].
  rewrite (selectVoice_stages _ voices _ Hl).
  match goal with |- exists v, Ok ?o = _ /\ _ => destruct o as [v|] eqn:E end.
  - exists v. split; trivial.
    revert E. apply orElse_In.
    + intros x. apply orElse_In; intros y Hy; now apply find_some in Hy.
    + intros x Hx. now apply firstVoice_In.
  - exfalso. destruct voices as [|v0 voices]; [congruence|].
    cbn [firstVoice] in E.
    match type of E with orElse ?a _ = _ => destruct a end; discriminate.
Qed.

(** Every catalog voice resolves on a non-empty list. *)
Lemma catalog_not_inherited voiceId l :
  voiceMap !! voiceId = Some l -> inherited voiceId = false.
Proof.
  intros H. destruct (inherited voiceId) eqn:E; trivial.
  unfold inherited in E. simpl in E.
  repeat (apply orb_true_iff in E as [E|E]); try discriminate;
    apply String.eqb_eq in E; subst; vm_compute in H; discriminate.
Qed.

Lemma unknown_not_female voiceId :
  voiceMap !! voiceId = None -> isFemale voiceId = false.
Proof.
  intros H. destruct (isFemale voiceId) eqn:E; trivial.
  unfold isFemale in E. simpl in E.
  repeat (apply orb_true_iff in E as [E|E]); try discriminate;
    apply String.eqb_eq in E; subst; vm_compute in H; discriminate.
Qed.




(** C5, at the failing input.  For the voice id ["constructor"] the
    read [voiceMap[settings.voice]] yields the function inherited from
    [Object.prototype]; it is truthy, so the default list is not taken,
    and the first call of [preferredVoices.some] throws: on every
    non-empty list of voices the resolution fails and the promise of
    [generateBrowserVoice] is rejected. *)
Theorem selectVoice_inherited_key_throws :
  forall v voices text s h,
    selectVoice "constructor" (v :: voices)
    = Throw (TypeError "preferredVoices.some is not a function")
    /\ buildUtterance {| speechSupported := true; getVoices := v :: voices |} text
         {| voice := "constructor"; speed := speed s; pitch := pitch s;
            stability := stability s; clarity := clarity s |}
       = Throw (TypeError "preferredVoices.some is not a function")
    /\ selectVoice "constructor" (getVoices h)
       = match getVoices h with
         | [] => Ok None
         | _ :: _ => Throw (TypeError "preferredVoices.some is not a function")
         end.
Proof.
  assert (P : preferredVoices "constructor" = NotAnArray)
    by (vm_compute; reflexivity).
  intros. unfold buildUtterance, selectVoice.
  cbn [speechSupported getVoices voice negb]. rewrite P.
  repeat split. now destruct (getVoices h).
Qed.

(** The same for every name a literal inherits: none is a key of the
    map, so each makes the resolution throw on a non-empty list. *)
Lemma selectVoice_inherited_throws voiceId v voices :
  inherited voiceId = true ->
  selectVoice voiceId (v :: voices)
  = Throw (TypeError "preferredVoices.some is not a function").
Proof.
  intros E.
  assert (P : preferredVoices voiceId = NotAnArray).
  { unfold inherited in E. simpl in E.
    repeat (apply orb_true_iff in E as [E|E]); try discriminate;
      apply String.eqb_eq in E; subst; vm_compute; reflexivity. }
  unfold selectVoice. now rewrite P.
Qed.

(** C10, counterexample.  ["zed"] is in no table.  With the voices
    Alice and Norman the code returns Norman (whose name contains
    "man": the male fallback), the claim Alice (no female match, so the
    first of the list). *)
Lemma unknown_voice_takes_male_fallback :
  voiceMap !! "zed" = None
  /\ selectVoice "zed" [named "Alice"; named "Norman"] = Ok (Some (named "Norman"))
  /\ selectVoice_as_claimed [named "Alice"; named "Norman"] = Some (named "Alice").
Proof. repeat split; vm_compute; reflexivity. Qed.

(** C10, as amended.  A voice id that is absent from the preference map
    (and names no member of [Object.prototype]) resolves as with the
    preference list ["female"]: the first voice whose lower-cased name
    contains "female"; failing that the id counts as male, and the
    first voice whose name contains "male" or "man" is taken; failing
    that, the first voice of the list. *)
Theorem unknown_voice_resolution voiceId voices :
  voiceMap !! voiceId = None -> inherited voiceId = false ->
  selectVoice voiceId voices =
  Ok (orElse (orElse (List.find (fun v => nameHas v "female") voices)
                     (List.find (genderMatch false) voices))
             (firstVoice voices)).
Proof.
  intros Hm Hk.
  assert (P : preferredVoices voiceId = Fragments ["female"])
    by (unfold preferredVoices, get; now rewrite Hm, Hk).
  rewrite (selectVoice_stages _ _ _ P), (unknown_not_female _ Hm).
  do 3 f_equal. apply find_ext'. intros a. simpl. apply orb_false_r.
Qed.

Lemma unknown_voice_resolution_witness :
  selectVoice "zed" [named "Alice"; named "Norman"] =
  Ok (orElse (orElse (List.find (fun v => nameHas v "female")
                        [named "Alice"; named "Norman"])
                     (List.find (genderMatch false) [named "Alice"; named "Norman"]))
             (firstVoice [named "Alice"; named "Norman"])).
Proof.
  apply (unknown_voice_resolution "zed"); vm_compute; reflexivity.
Defined.

End SpeechFacts.

(** ** The generation flow *)

Module PageFacts.
Import JS JSFacts Speech Page Run.

Lemma skipn_own {A} (l x : list A) : skipn (length l) (l ++ x) = x.
Proof. induction l; simpl; auto. Qed.

Lemma skipn_self {A} (l : list A) : skipn (length l) l = [].
Proof. induction l; simpl; auto. Qed.

Lemma revoked_app l1 l2 : revoked (l1 ++ l2) = revoked l1 ++ revoked l2.
Proof.
  induction l1 as [|e l1 IH]; simpl; trivial.
  destruct e; simpl; now rewrite ?IH.
Qed.

Lemma progressValues_app l1 l2 :
  progressValues (l1 ++ l2) = progressValues l1 ++ progressValues l2.
Proof.
  induction l1 as [|e l1 IH]; simpl; trivial.
  destruct e; simpl; now rewrite ?IH.
Qed.

(** *** The segments, one equation each *)

Lemma generateVoice_guarded h s :
  guard (state s) = true -> generateVoice h s = (s, Returned).
Proof. intros H. unfold generateVoice. now rewrite H. Qed.

Lemma finallyBlock_state s :
  state (finallyBlock s)
  = {| text := text (state s); isGenerating := false;
       generationProgress := Fin 0;
       currentAudio := currentAudio (state s);
       audioHistory := audioHistory (state s);
       voiceSettings := voiceSettings (state s) |}.
Proof. reflexivity. Qed.

Lemma finallyBlock_log s : log (finallyBlock s) = log s ++ [Progress (Fin 0)].
Proof. reflexivity. Qed.

(** Unfolds the setters of a segment on a session given by its fields. *)
Ltac open_segment :=
  cbv [generateVoice onSpeechEnd onSpeechError onLoadedMetadata
       finallyBlock catchBlock setGenerationProgress startInterval
       clearInterval emit withState setIsGenerating setCurrentAudio
       setAudioHistory keepLast10 preamble failureReport
       state log liveIntervals text isGenerating generationProgress
       currentAudio audioHistory voiceSettings Nat.pred fst snd] in *.

Ltac close_segment :=
  rewrite <- ?app_assoc; cbn [app]; reflexivity.

Lemma generateVoice_suspends h s u :
  guard (state s) = false ->
  buildUtterance h (text (state s)) (voiceSettings (state s)) = Ok u ->
  generateVoice h s =
  ({| state := {| text := text (state s); isGenerating := true;
                  generationProgress := Fin 100;
                  currentAudio := currentAudio (state s);
                  audioHistory := audioHistory (state s);
                  voiceSettings := voiceSettings (state s) |};
      log := ((log s ++ preamble) ++ [SpeechCancel; SpeakScheduled u]);
      liveIntervals := liveIntervals s |},
   Suspended (AwaitSpeech (text (state s)) (voiceSettings (state s)) u)).
Proof.
  destruct s as [[t g p c hs v] l n]. intros Hg Hu. open_segment.
  rewrite Hg, Hu. close_segment.
Qed.

Lemma generateVoice_fails h s e :
  guard (state s) = false ->
  buildUtterance h (text (state s)) (voiceSettings (state s)) = Throw e ->
  generateVoice h s =
  ({| state := {| text := text (state s); isGenerating := false;
                  generationProgress := Fin 0;
                  currentAudio := currentAudio (state s);
                  audioHistory := audioHistory (state s);
                  voiceSettings := voiceSettings (state s) |};
      log := ((log s ++ preamble) ++ failureReport) ++ [Progress (Fin 0)];
      liveIntervals := liveIntervals s |},
   Settled).
Proof.
  destruct s as [[t g p c hs v] l n]. intros Hg Hu. open_segment.
  rewrite Hg, Hu. close_segment.
Qed.

Lemma onSpeechEnd_eq text settings url s :
  onSpeechEnd text settings url s =
  ({| state := state s; log := log s ++ [CreateObjectURL url; NewAudio url];
      liveIntervals := liveIntervals s |},
   Suspended (AwaitMetadata text settings url)).
Proof. reflexivity. Qed.

Lemma onSpeechError_eq code s :
  onSpeechError code s =
  ({| state := {| text := text (state s); isGenerating := false;
                  generationProgress := Fin 0;
                  currentAudio := currentAudio (state s);
                  audioHistory := audioHistory (state s);
                  voiceSettings := voiceSettings (state s) |};
      log := ((log s ++ [ConsoleError "Speech error:"]) ++ failureReport)
             ++ [Progress (Fin 0)];
      liveIntervals := liveIntervals s |},
   Settled).
Proof. destruct s as [[t g p c hs v] l n]. open_segment. close_segment. Qed.

Lemma onLoadedMetadata_eq text settings url duration now created s :
  onLoadedMetadata text settings url duration now created s =
  ({| state := {| Page.text := Page.text (state s); isGenerating := false;
                  generationProgress := Fin 0;
                  currentAudio := Some (newAudio text settings url duration now created);
                  audioHistory := newAudio text settings url duration now created
                                  :: firstn 9 (audioHistory (state s));
                  voiceSettings := voiceSettings (state s) |};
      log := log s ++ [Progress (Fin 0)];
      liveIntervals := liveIntervals s |},
   Settled).
Proof. destruct s as [[t g p c hs v] l n]. open_segment. close_segment. Qed.

(** *** Invariants of a session *)

Lemma guard_false st :
  guard st = false -> trim (text st) <> "" /\ isGenerating st = false.
Proof.
  unfold guard. intros H. apply orb_false_iff in H as [Ht Hg]. split; trivial.
  intros E. rewrite E in Ht. discriminate.
Qed.

Lemma guard_open st :
  trim (text st) <> "" -> isGenerating st = false -> guard st = false.
Proof.
  unfold guard. intros Ht ->. destruct (trim (text st)); [congruence|reflexivity].
Qed.

Lemma single_delete {A} (l : list A) i x :
  (length l <= 1)%nat -> l !! i = Some x -> delete i l = [].
Proof.
  destruct l as [|a [|b l]]; simpl; intros Hl Hi.
  - discriminate.
  - destruct i; [reflexivity|discriminate].
  - lia.
Qed.

Lemma lookup_nonempty {A} (l : list A) i x : l !! i = Some x -> l <> [].
Proof. destruct l; [discriminate|congruence]. Qed.

Lemma insert_nonempty {A} (l : list A) i x y :
  l !! i = Some x -> <[i := y]> l <> [].
Proof. destruct l, i; simpl; congruence. Qed.

Lemma keepLast10_length a prev : (length (keepLast10 a prev) <= 10)%nat.
Proof.
  unfold keepLast10. simpl. rewrite length_firstn. lia.
Qed.

Lemma select_state k s :
  isGenerating (state (VoiceHistory.select k s)) = isGenerating (state s)
  /\ audioHistory (state (VoiceHistory.select k s)) = audioHistory (state s)
  /\ liveIntervals (VoiceHistory.select k s) = liveIntervals s
  /\ log (VoiceHistory.select k s) = log s.
Proof.
  unfold VoiceHistory.select. destruct (nth_error _ _); auto.
Qed.

Lemma deleteFromHistory_state audioId s :
  state (VoiceHistory.deleteFromHistory audioId s) = state s
  /\ liveIntervals (VoiceHistory.deleteFromHistory audioId s) = liveIntervals s.
Proof.
  unfold VoiceHistory.deleteFromHistory. destruct (List.find _ _); auto.
Qed.

Lemma step_invariant m e : invariant m -> invariant (step m e).
Proof.
  intros [H1 H2 H3 H4].
  destruct e as [t|v|k|audioId|h|r|i url|i code|i d now created]; cbn [step].
  - constructor; auto.
  - constructor; auto.
  - destruct (select_state k (session m)) as (Eg & Eh & Et & _).
    constructor; cbn [onSession session flights]; rewrite ?Eg, ?Eh, ?Et; auto.
  - destruct (deleteFromHistory_state audioId (session m)) as (Es & Et).
    constructor; cbn [onSession session flights]; rewrite ?Es, ?Et; auto.
  - destruct (guard (state (session m))) eqn:G.
    + rewrite (generateVoice_guarded _ _ G). constructor; auto.
    + destruct (guard_false _ G) as [_ Hg].
      assert (F : flights m = []).
      { destruct (flights m); trivial. rewrite H2 in Hg; congruence. }
      destruct (buildUtterance h (text (state (session m)))
                  (voiceSettings (state (session m)))) as [u|err] eqn:B.
      * rewrite (generateVoice_suspends _ _ _ G B).
        constructor; cbn [started snd fst session flights state log
          liveIntervals isGenerating audioHistory]; auto.
        rewrite F. simpl. lia.
      * rewrite (generateVoice_fails _ _ _ G B).
        constructor; cbn [started snd fst session flights state log
          liveIntervals isGenerating audioHistory]; auto.
  - rewrite H3. constructor; auto.
  - destruct (flights m !! i) as [[t st u|t st url']|] eqn:L;
      try (constructor; auto; fail).
    rewrite onSpeechEnd_eq.
    constructor; cbn [resumed snd fst session flights state log liveIntervals];
      auto.
    + now rewrite length_insert.
    + intros _. apply H2. eapply lookup_nonempty; eauto.
  - destruct (flights m !! i) as [[t st u|t st url']|] eqn:L;
      try (constructor; auto; fail).
    rewrite onSpeechError_eq.
    constructor; cbn [resumed snd fst session flights state log liveIntervals
      isGenerating audioHistory]; auto;
      rewrite (single_delete _ _ _ H1 L); simpl; [lia|congruence].
  - destruct (flights m !! i) as [[t st u|t st url']|] eqn:L;
      try (constructor; auto; fail).
    rewrite onLoadedMetadata_eq.
    constructor; cbn [resumed snd fst session flights state log liveIntervals
      isGenerating audioHistory]; auto.
    + rewrite (single_delete _ _ _ H1 L). simpl. lia.
    + rewrite (single_delete _ _ _ H1 L). congruence.
    + apply (keepLast10_length (newAudio t st url' d now created)).
Qed.

Lemma initial_invariant : invariant initial.
Proof. constructor; simpl; auto; try lia; try congruence. Qed.

(** A session has at most one call of [generateVoice] waiting, its flag
    is up while one waits, no progress interval is ever live between
    two events, and the history holds at most ten artifacts. *)
Lemma reachable_invariant m : reachable m -> invariant m.
Proof.
  induction 1; [apply initial_invariant | now apply step_invariant].
Qed.

Lemma reachable_run m es : reachable m -> reachable (run m es).
Proof.
  revert m. induction es as [|e es IH]; simpl; intros m H; trivial.
  apply IH. now constructor.
Qed.

End PageFacts.

(** ** The bounded history (C1) *)

Module HistoryClaims.
Import JS Speech Page Run PageFacts Fixtures.

(** C1, at the failing input.  After ten generations the history is
    full.  The eleventh drops the oldest artifact, the one at "blob:1";
    that URL was created, is in the history no more, and was never
    revoked: no [URL.revokeObjectURL] is in the log at all, where
    [deleteFromHistory] revokes the URL of the entry it is given and
    [audio-utils.ts] revokes every URL it creates. *)
Lemma evicted_artifact_not_released :
  let full := run initial tenGenerations in
  let next := run full (generation 11) in
  urls full = ["blob:10"; "blob:9"; "blob:8"; "blob:7"; "blob:6";
               "blob:5"; "blob:4"; "blob:3"; "blob:2"; "blob:1"]
  /\ urls next = ["blob:11"; "blob:10"; "blob:9"; "blob:8"; "blob:7";
                  "blob:6"; "blob:5"; "blob:4"; "blob:3"; "blob:2"]
  /\ In "blob:1" (created (log (session next)))
  /\ ~ In "blob:1" (revoked (log (session next))).
Proof.
  vm_compute. repeat split; auto; tauto.
Qed.

(** The same for every full history.  When the history holds ten
    artifacts, the end of a generation puts the new artifact at the
    front, keeps the nine most recent ones in their order and drops
    exactly one, the oldest; the history still holds ten, the new
    artifact is the selected one, and the step releases no resource
    handle. *)
Theorem history_append_at_capacity s text settings url duration now created :
  length (audioHistory (state s)) = 10%nat ->
  let a := newAudio text settings url duration now created in
  let s' := fst (onLoadedMetadata text settings url duration now created s) in
  audioHistory (state s') = a :: firstn 9 (audioHistory (state s))
  /\ length (audioHistory (state s')) = 10%nat
  /\ (exists oldest,
        audioHistory (state s) = firstn 9 (audioHistory (state s)) ++ [oldest])
  /\ currentAudio (state s') = Some a
  /\ revoked (log s') = revoked (log s).
Proof.
  intros Hlen a s'. subst s' a. rewrite onLoadedMetadata_eq.
  cbn [fst state log audioHistory currentAudio].
  split; [reflexivity|]. split; [|split; [|split; [reflexivity|]]].
  - cbn [length]. rewrite length_firstn. lia.
  - pose proof (firstn_skipn 9 (audioHistory (state s))) as E.
    assert (L : length (skipn 9 (audioHistory (state s))) = 1%nat)
      by (rewrite length_skipn; lia).
    destruct (skipn 9 (audioHistory (state s))) as [|x [|y l]]; try discriminate.
    exists x. now rewrite E.
  - rewrite revoked_app. simpl. apply app_nil_r.
Qed.

Lemma history_append_at_capacity_witness :
  let s := session (run initial tenGenerations) in
  let a := newAudio "Eleven" (voiceSettings (state s)) "blob:11" (Fin 2) 11 11 in
  let s' := fst (onLoadedMetadata "Eleven" (voiceSettings (state s)) "blob:11"
                   (Fin 2) 11 11 s) in
  audioHistory (state s') = a :: firstn 9 (audioHistory (state s))
  /\ length (audioHistory (state s')) = 10%nat
  /\ (exists oldest,
        audioHistory (state s) = firstn 9 (audioHistory (state s)) ++ [oldest])
  /\ currentAudio (state s') = Some a
  /\ revoked (log s') = revoked (log s).
Proof.
  apply (history_append_at_capacity (session (run initial tenGenerations))).
  vm_compute. reflexivity.
Defined.

(** Whatever its length, the history comes out of an append with at
    most ten artifacts, and ordered by creation time when it was and the
    clock did not go back. *)
Lemma keepLast10_sorted a prev :
  Sorted (fun x y => (Audio.createdAt y <= Audio.createdAt x)%N) prev ->
  (forall x, In x prev -> (Audio.createdAt x <= Audio.createdAt a)%N) ->
  Sorted (fun x y => (Audio.createdAt y <= Audio.createdAt x)%N) (keepLast10 a prev).
Proof.
  intros Hs Ha. unfold keepLast10. constructor.
  - generalize 9%nat. induction Hs as [|x l Hl IH Hx]; intros n.
    + rewrite firstn_nil. constructor.
    + destruct n; simpl; constructor.
      * apply IH. intros y Hy. apply Ha. now right.
      * destruct Hx; destruct n; simpl; constructor; trivial.
  - destruct prev as [|x l]; simpl; constructor. apply Ha. now left.
Qed.

End HistoryClaims.

(** ** The guard, failures and progress (C2, C3, C6, C8) *)

Module GenerationClaims.
Import JS JSFacts Speech Page Run PageFacts Fixtures.

Lemma newEffects_app s l st n :
  newEffects s {| state := st; log := log s ++ l; liveIntervals := n |} = l.
Proof. unfold newEffects. cbn [log]. apply skipn_own. Qed.

Lemma newEffects_none s st n :
  newEffects s {| state := st; log := log s; liveIntervals := n |} = [].
Proof. unfold newEffects. cbn [log]. apply skipn_self. Qed.

Lemma newEffects_same s s' : log s' = log s -> newEffects s s' = [].
Proof. unfold newEffects. intros ->. apply skipn_self. Qed.

(** A call that passes the guard waits or is over, it does not return
    at line 149. *)
Lemma generateVoice_accepted h s :
  trim (text (state s)) <> "" -> isGenerating (state s) = false ->
  snd (generateVoice h s) <> Returned
  /\ In (Progress (Fin 100)) (newEffects s (fst (generateVoice h s))).
Proof.
  intros Ht Hg. pose proof (guard_open _ Ht Hg) as G.
  destruct (buildUtterance h (text (state s)) (voiceSettings (state s)))
    as [u|err] eqn:B.
  - rewrite (generateVoice_suspends _ _ _ G B). cbn [fst snd]. split; [discriminate|].
    rewrite <- app_assoc, newEffects_app. simpl. tauto.
  - rewrite (generateVoice_fails _ _ _ G B). cbn [fst snd]. split; [discriminate|].
    rewrite <- !app_assoc, newEffects_app. simpl. tauto.
Qed.

(** C2, counterexample.  With a generation under way, a second call
    does not fail: it returns at line 149.  Nothing is raised, nothing is
    reported, the session is as before; the caller cannot tell this
    return from any other. *)
Lemma second_generate_returns_silently :
  flights inFlight <> []
  /\ generateVoice host1 (session inFlight) = (session inFlight, Returned)
  /\ reportsFailure (session inFlight)
       (fst (generateVoice host1 (session inFlight))) = false.
Proof. vm_compute. repeat split. discriminate. Qed.

(** C2, as amended.  While a call of [generateVoice] waits, a further
    call is ignored: it returns at once, starts nothing, queues nothing
    and signals no error, and the session is unchanged.  Once the waiting
    call is over, with an artifact or with a failure, [isGenerating] is
    down again and a call on a non-blank text is accepted. *)
Theorem generate_while_in_flight m h :
  reachable m -> flights m <> [] ->
  generateVoice h (session m) = (session m, Returned)
  /\ step m (Generate h) = m
  /\ forall e, flights (step m e) = [] ->
       isGenerating (state (session (step m e))) = false
       /\ forall h',
            trim (text (state (session (step m e)))) <> "" ->
            snd (generateVoice h' (session (step m e))) <> Returned.
Proof.
  intros Hr Hf. destruct (reachable_invariant _ Hr) as [H1 H2 H3 H4].
  assert (G : guard (state (session m)) = true).
  { unfold guard. rewrite (H2 Hf). apply orb_true_r. }
  split; [now apply generateVoice_guarded|].
  split.
  { cbn [step]. rewrite (generateVoice_guarded _ _ G). now destruct m. }
  intros e He.
  assert (Hdown : isGenerating (state (session (step m e))) = false).
  { destruct e as [t|v|k|audioId|h0|r|i url|i code|i d now created];
      cbn [step] in *; try (now elim Hf).
    - rewrite (generateVoice_guarded _ _ G) in He. now elim Hf.
    - rewrite H3 in He. now elim Hf.
    - destruct (flights m !! i) as [[t st u|t st url']|] eqn:L; try (now elim Hf).
      cbn [resumed onSpeechEnd snd flights] in He.
      now apply insert_nonempty with (y := AwaitMetadata t st url) in L.
    - destruct (flights m !! i) as [[t st u|t st url']|] eqn:L; try (now elim Hf).
      reflexivity.
    - destruct (flights m !! i) as [[t st u|t st url']|] eqn:L; try (now elim Hf).
      reflexivity. }
  split; trivial.
  intros h' Ht. now apply generateVoice_accepted.
Qed.

Lemma generate_while_in_flight_witness :
  generateVoice host1 (session inFlight) = (session inFlight, Returned)
  /\ step inFlight (Generate host1) = inFlight
  /\ forall e, flights (step inFlight e) = [] ->
       isGenerating (state (session (step inFlight e))) = false
       /\ forall h',
            trim (text (state (session (step inFlight e)))) <> "" ->
            snd (generateVoice h' (session (step inFlight e))) <> Returned.
Proof.
  apply (generate_while_in_flight inFlight host1).
  - apply (reachable_run initial [EditText "Hello"; Generate host1]).
    apply reachable_initial.
  - vm_compute. discriminate.
Defined.

(** C3, counterexample.  On a text of blanks the call does not fail:
    it returns at line 149, with nothing raised and nothing reported. *)
Lemma blank_text_returns_silently :
  let s := session (run initial [EditText "  	 "]) in
  generateVoice host1 s = (s, Returned)
  /\ reportsFailure s (fst (generateVoice host1 s)) = false.
Proof. vm_compute. repeat split. Qed.

(** C3, as amended.  When the text is empty or made of white space
    only, a call of [generateVoice] is ignored: it returns before
    anything reaches the speech engine, builds no artifact, leaves the
    history and the rest of the session as they are, and signals no
    error. *)
Theorem blank_text_is_ignored m h :
  allWhiteSpace (text (state (session m))) = true ->
  generateVoice h (session m) = (session m, Returned)
  /\ step m (Generate h) = m
  /\ List.filter touchesEngine (newEffects (session m) (session (step m (Generate h)))) = []
  /\ audioHistory (state (session (step m (Generate h))))
     = audioHistory (state (session m)).
Proof.
  intros Hw. apply trim_empty_iff in Hw.
  assert (G : guard (state (session m)) = true)
    by (unfold guard; now rewrite Hw).
  assert (E : step m (Generate h) = m).
  { cbn [step]. rewrite (generateVoice_guarded _ _ G). now destruct m. }
  rewrite E. repeat split.
  - now apply generateVoice_guarded.
  - now rewrite newEffects_same.
Qed.

Lemma blank_text_is_ignored_witness :
  let m := run initial [EditText "  	 "] in
  generateVoice host1 (session m) = (session m, Returned)
  /\ step m (Generate host1) = m
  /\ List.filter touchesEngine
       (newEffects (session m) (session (step m (Generate host1)))) = []
  /\ audioHistory (state (session (step m (Generate host1))))
     = audioHistory (state (session m)).
Proof.
  apply (blank_text_is_ignored (run initial [EditText "  	 "]) host1).
  vm_compute. reflexivity.
Defined.


(** The history changes in one place only, the completion of a
    generation; the selection there and on a click in the history. *)
Lemma history_changes_on_completion_only m e :
  match e with
  | MetadataLoaded _ _ _ _ => True
  | SelectEntry _ =>
      audioHistory (state (session (step m e))) = audioHistory (state (session m))
  | _ =>
      audioHistory (state (session (step m e))) = audioHistory (state (session m))
      /\ currentAudio (state (session (step m e))) = currentAudio (state (session m))
  end.
Proof.
  destruct e as [t|v|k|audioId|h|r|i url|i code|i d now created]; cbn [step];
    trivial.
  - now split.
  - now split.
  - now destruct (select_state k (session m)) as (_ & Eh & _).
  - cbn [onSession session].
    now destruct (deleteFromHistory_state audioId (session m)) as (-> & _).
  - destruct (guard (state (session m))) eqn:G.
    + rewrite (generateVoice_guarded _ _ G). now split.
    + destruct (buildUtterance h (text (state (session m)))
                  (voiceSettings (state (session m)))) as [u|err] eqn:B.
      * rewrite (generateVoice_suspends _ _ _ G B). now split.
      * rewrite (generateVoice_fails _ _ _ G B). now split.
  - destruct (liveIntervals (session m)); now split.
  - destruct (flights m !! i) as [[t st u|t st url']|]; now split.
  - destruct (flights m !! i) as [[t st u|t st url']|]; now split.
Qed.


End GenerationClaims.

(** ** Progress (C8) *)

Module ProgressClaims.
Import JS Speech Page Run PageFacts Fixtures.

(** C8, at the failing input.  The text is "Hello" and the session is
    fresh.  The call sets the progress to 0, creates the interval, clears
    it in the same turn and sets the progress to 100; only then is the
    utterance handed to the engine.  While the engine speaks the progress
    stands at 100 and no interval is live, so no tick can come.  When the
    generation is over the progress goes back to 0: the values shown are
    0, 100, 0. *)
Theorem progress_complete_before_speech :
  let done := run inFlight [SpeechEnded 0 "blob:1"; MetadataLoaded 0 (Fin 2) 1 1] in
  log (session inFlight)
  = [Progress (Fin 0); SetInterval 200; ClearInterval; Progress (Fin 100);
     SpeechCancel; SpeakScheduled helloUtterance]
  /\ flights inFlight = [AwaitSpeech "Hello" (voiceSettings initialState) helloUtterance]
  /\ generationProgress (state (session inFlight)) = Fin 100
  /\ liveIntervals (session inFlight) = 0%nat
  /\ (forall r, step inFlight (Tick r) = inFlight)
  /\ flights done = []
  /\ progressValues (log (session done)) = [Fin 0; Fin 100; Fin 0].
Proof.
  vm_compute. repeat split.
Qed.

(** The same on every session: a call that reaches the engine has put
    the progress at 100 before, and leaves as many live intervals as it
    found. *)
Lemma progress_before_engine h s u :
  guard (state s) = false ->
  buildUtterance h (text (state s)) (voiceSettings (state s)) = Ok u ->
  newEffects s (fst (generateVoice h s))
  = preamble ++ [SpeechCancel; SpeakScheduled u]
  /\ generationProgress (state (fst (generateVoice h s))) = Fin 100
  /\ liveIntervals (fst (generateVoice h s)) = liveIntervals s.
Proof.
  intros G B. rewrite (generateVoice_suspends _ _ _ G B). cbn [fst].
  rewrite <- app_assoc. unfold newEffects. cbn [log state generationProgress
    liveIntervals]. rewrite skipn_own. auto.
Qed.

(** The updater of the interval, were it to run, stops adding at 90;
    below 90 it returns the sum as it is, with no cap at 90 or at 100
    (from 89 the sum can be close to 104). *)
Example progressTick_oversteps :
  forall sum,
    progressTick sum (Fin 90) = Fin 90
    /\ progressTick sum (Fin 89) = sum (Fin 89)
    /\ progressTick sum NaN = sum NaN.
Proof. intros sum. repeat split. Qed.

End ProgressClaims.

(** ** Removal from the history (C7) *)

Module RemovalClaims.
Import JS Speech Page Run PageFacts Fixtures.

(** C7, counterexample.  The history holds the artifact of one
    generation, with id "1".  After [deleteFromHistory("1")] its URL is
    revoked and the artifact is still in the history, and still the
    selected one. *)
Lemma deleted_artifact_stays_in_history :
  let s := session (run initial (generation 1)) in
  let s' := VoiceHistory.deleteFromHistory "1" s in
  map Audio.id (audioHistory (state s)) = ["1"]
  /\ map Audio.id (audioHistory (state s')) = ["1"]
  /\ option_map Audio.id (currentAudio (state s')) = Some "1"
  /\ revoked (log s') = ["blob:1"].
Proof. vm_compute. repeat split. Qed.

(** C7, as amended.  [deleteFromHistory(id)] revokes the object URL of
    the first artifact of the history with that id, if there is one, and
    does nothing else: the history and the selection are as before in
    every case, and no value is returned.  For an id that is not in the
    history the call changes nothing at all. *)
Theorem deleteFromHistory_only_releases audioId s :
  state (VoiceHistory.deleteFromHistory audioId s) = state s
  /\ match List.find (fun a => String.eqb (Audio.id a) audioId)
                     (audioHistory (state s)) with
     | Some audio =>
         In audio (audioHistory (state s))
         /\ Audio.id audio = audioId
         /\ log (VoiceHistory.deleteFromHistory audioId s)
            = log s ++ [RevokeObjectURL (Audio.audioUrl audio)]
     | None =>
         (forall a, In a (audioHistory (state s)) -> Audio.id a <> audioId)
         /\ VoiceHistory.deleteFromHistory audioId s = s
     end.
Proof.
  unfold VoiceHistory.deleteFromHistory.
  destruct (List.find _ _) as [audio|] eqn:F.
  - apply find_some in F as [Hin Hid]. apply String.eqb_eq in Hid. auto.
  - repeat split. intros a Hin Hid.
    apply (find_none _ _ F) in Hin. apply String.eqb_neq in Hin. auto.
Qed.

(** Removing an id that no artifact has is idempotent and silent. *)
Lemma deleteFromHistory_absent audioId s :
  (forall a, In a (audioHistory (state s)) -> Audio.id a <> audioId) ->
  VoiceHistory.deleteFromHistory audioId s = s.
Proof.
  intros H. unfold VoiceHistory.deleteFromHistory.
  destruct (List.find _ _) as [audio|] eqn:F; trivial.
  apply find_some in F as [Hin Hid]. apply String.eqb_eq in Hid.
  now elim (H _ Hin).
Qed.

End RemovalClaims.

(** ** The player (C9) *)

Module PlayerClaims.
Import JS AudioPlayer.

Lemma bindAudio_loading audio p :
  mounted p = true ->
  isLoading (state (bindAudio audio p)) = true
  /\ isPlaying (state (bindAudio audio p)) = false
  /\ List.filter isPlayRequest (requests (bindAudio audio p))
     = List.filter isPlayRequest (requests p).
Proof.
  intros M. unfold bindAudio. rewrite M. cbn. repeat split.
  rewrite List.filter_app. simpl. apply app_nil_r.
Qed.

(** C9.  While the audio is loading, [togglePlayPause] changes nothing:
    the player is as before (so [isPlaying] keeps its value and the
    element is asked nothing), however often it is called.  After a
    selection, [isPlaying] is false and no play or pause has been asked,
    and this stays so for any number of calls; once [loadeddata] has
    fired the next call asks the element to play. *)
Theorem togglePlayPause_while_loading p :
  isLoading (state p) = true ->
  togglePlayPause p = p
  /\ (forall n, times n togglePlayPause p = p)
  /\ (forall audio n,
        mounted p = true ->
        let q := times n togglePlayPause (bindAudio audio p) in
        isPlaying (state q) = false
        /\ List.filter isPlayRequest (requests q) = List.filter isPlayRequest (requests p)
        /\ requests (togglePlayPause (handleLoadedData q)) = requests q ++ [Play]).
Proof.
  intros L.
  assert (T : forall q, isLoading (state q) = true -> togglePlayPause q = q).
  { intros q Hq. unfold togglePlayPause. rewrite Hq. now rewrite orb_true_r. }
  assert (N : forall q n, isLoading (state q) = true -> times n togglePlayPause q = q).
  { intros q n Hq. induction n as [|n IH]; simpl; trivial. now rewrite (T q Hq). }
  split; [auto|]. split; [auto|].
  intros audio n M q. subst q.
  destruct (bindAudio_loading audio p M) as (Hl & Hp & Hr).
  rewrite (N _ n Hl). repeat split; trivial.
  destruct p as [st mt rq]. cbn [mounted] in M. subst mt. reflexivity.
Qed.

Lemma togglePlayPause_while_loading_witness :
  togglePlayPause mountedPlayer = mountedPlayer
  /\ (forall n, times n togglePlayPause mountedPlayer = mountedPlayer)
  /\ (forall audio n,
        mounted mountedPlayer = true ->
        let q := times n togglePlayPause (bindAudio audio mountedPlayer) in
        isPlaying (state q) = false
        /\ List.filter isPlayRequest (requests q)
           = List.filter isPlayRequest (requests mountedPlayer)
        /\ requests (togglePlayPause (handleLoadedData q)) = requests q ++ [Play]).
Proof.
  apply (togglePlayPause_while_loading mountedPlayer). reflexivity.
Defined.

End PlayerClaims.

(** ** Scenarios *)

Module Scenarios.
Import JS Speech Page Run Fixtures.

(** "Hello world" with the default settings: one artifact, at the head
    of the history and selected. *)
Example hello_world :
  let m := run initial [EditText "Hello world"; Generate host1;
                        SpeechEnded 0 "blob:1";
                        MetadataLoaded 0 (Fin 1.2) 1700000000000 1700000000001] in
  audioHistory (state (session m))
  = [ {| Audio.id := "1700000000000"; Audio.text := "Hello world";
         Audio.voice := "rachel"; Audio.audioUrl := "blob:1";
         Audio.duration := Fin 1.2; Audio.createdAt := 1700000000001;
         Audio.settings := voiceSettings initialState |} ]
  /\ currentAudio (state (session m)) = hd_error (audioHistory (state (session m)))
  /\ isGenerating (state (session m)) = false
  /\ flights m = [].
Proof. vm_compute. repeat split. Qed.

(** Each voice of the catalog against a host with typical names. *)
Example catalog_voices :
  let voices := [named "Alex"; named "Fred"; named "Samantha"; named "Victoria"] in
  selectVoice "rachel" voices = Ok (Some (named "Samantha"))
  /\ selectVoice "domi" voices = Ok (Some (named "Victoria"))
  /\ selectVoice "antoni" voices = Ok (Some (named "Alex"))
  /\ selectVoice "josh" voices = Ok (Some (named "Fred"))
  /\ selectVoice "bella" voices = Ok (Some (named "Alex"))
  /\ selectVoice "rachel" [] = Ok None.
Proof. vm_compute. repeat split. Qed.

(** A name with "Female" in it serves every male voice of the catalog
    too: "female" contains "male". *)
Example female_name_matches_male :
  selectVoice "antoni" [named "Google UK English Female"; named "Daniel"]
  = Ok (Some (named "Google UK English Female")).
Proof. vm_compute. reflexivity. Qed.

(** A text of more than 100 characters is cut for display. *)
Example long_text_is_cut :
  let t := ("0123456789012345678901234567890123456789012345678901234567890123456789"
            ++ "0123456789012345678901234567890123456789")%string in
  String.length t = 110%nat
  /\ String.length (Audio.text (newAudio t (voiceSettings initialState)
                                  "blob:1" (Fin 1) 1 1)) = 103%nat.
Proof. vm_compute. split; reflexivity. Qed.

(** A generation that fails in the executor: the host has voices and
    the voice id names an inherited member. *)
Example inherited_key_fails_generation :
  let m := run initial
             [EditText "Hello";
              EditSettings {| voice := "constructor"; speed := Fin 1.0;
                              pitch := Fin 1.0; stability := Fin 0.75;
                              clarity := Fin 0.75 |}] in
  let m' := step m (Generate host1) in
  reportsFailure (session m) (session m') = true
  /\ flights m' = []
  /\ audioHistory (state (session m')) = []
  /\ isGenerating (state (session m')) = false.
Proof. vm_compute. repeat split. Qed.

(** White space as [trim] sees it. *)
Example trim_examples :
  trim "  a b  " = "a b" /\ trim "" = "" /\ allWhiteSpace "   " = true.
Proof. vm_compute. repeat split. Qed.

End Scenarios.

(** * Further properties *)

(** ** What every session keeps *)

Module SessionProperties.
Import JS JSFacts Speech Page Run PageFacts Fixtures Kept.

Lemma step_flagged m e : invariant m -> flagged m -> flagged (step m e).
Proof.
  intros [H1 H2 H3 H4] [F1 F2].
  destruct e as [t|v|k|audioId|h|r|i url|i code|i d now created]; cbn [step].
  - constructor; auto.
  - constructor; auto.
  - unfold VoiceHistory.select, onSession. cbn [session flights].
    destruct (nth_error _ _); constructor; auto.
  - unfold VoiceHistory.deleteFromHistory, onSession. cbn [session flights].
    destruct (List.find _ _); constructor; auto.
  - destruct (guard (state (session m))) eqn:G.
    + rewrite (generateVoice_guarded _ _ G). constructor; auto.
    + destruct (buildUtterance h (text (state (session m)))
                  (voiceSettings (state (session m)))) as [u|err] eqn:B.
      * rewrite (generateVoice_suspends _ _ _ G B).
        constructor; cbn [started snd fst session flights state
          isGenerating generationProgress]; auto;
          try (intros _; destruct (flights m); discriminate).
      * rewrite (generateVoice_fails _ _ _ G B).
        constructor; cbn [started snd fst session flights state
          isGenerating generationProgress]; auto; try discriminate.
  - rewrite H3. constructor; auto.
  - destruct (flights m !! i) as [[t st u|t st url']|] eqn:L;
      try (constructor; auto; fail).
    all: rewrite ?onSpeechEnd_eq.
    all: constructor; cbn [resumed snd fst session flights state]; auto;
      try (intros _; eapply insert_nonempty; eauto).
  - destruct (flights m !! i) as [[t st u|t st url']|] eqn:L;
      try (constructor; auto; fail).
    all: rewrite ?onSpeechError_eq.
    all: constructor; cbn [resumed snd fst session flights state isGenerating
      generationProgress]; auto; try discriminate.
  - destruct (flights m !! i) as [[t st u|t st url']|] eqn:L;
      try (constructor; auto; fail).
    all: rewrite ?onLoadedMetadata_eq.
    all: constructor; cbn [resumed snd fst session flights state isGenerating
      generationProgress]; auto; try discriminate.
Qed.

Lemma reachable_flagged m : reachable m -> flagged m.
Proof.
  induction 1 as [|m e Hr IH].
  - constructor; simpl; auto; discriminate.
  - apply step_flagged; trivial. now apply reachable_invariant.
Qed.

(** X1.  In every session the history holds at most ten artifacts,
    whatever the user and the host did. *)
Theorem history_never_exceeds_ten m :
  reachable m -> (length (audioHistory (state (session m))) <= 10)%nat.
Proof. intros H. now destruct (reachable_invariant _ H). Qed.

Lemma history_never_exceeds_ten_witness :
  (length (audioHistory (state (session
     (run initial (tenGenerations ++ generation 11 ++ generation 12))))) <= 10)%nat.
Proof.
  apply (history_never_exceeds_ten
           (run initial (tenGenerations ++ generation 11 ++ generation 12))).
  apply reachable_run, reachable_initial.
Defined.

(** X2.  In every session at most one call of [generateVoice] waits,
    and [isGenerating] is up exactly while one does. *)
Theorem one_generation_at_a_time m :
  reachable m ->
  (length (flights m) <= 1)%nat
  /\ (isGenerating (state (session m)) = true <-> flights m <> []).
Proof.
  intros H. destruct (reachable_invariant _ H) as [H1 H2 _ _].
  destruct (reachable_flagged _ H) as [F1 _]. repeat split; auto.
Qed.

Lemma one_generation_at_a_time_witness :
  (length (flights inFlight) <= 1)%nat
  /\ (isGenerating (state (session inFlight)) = true <-> flights inFlight <> []).
Proof.
  apply (one_generation_at_a_time inFlight).
  apply (reachable_run initial [EditText "Hello"; Generate host1]).
  apply reachable_initial.
Defined.

(** X3.  Between two events the progress cell holds 100 while a
    generation is under way and 0 otherwise, and no interval is live:
    a timer tick changes nothing. *)
Theorem progress_is_all_or_nothing m :
  reachable m ->
  generationProgress (state (session m))
  = (if isGenerating (state (session m)) then Fin 100 else Fin 0)
  /\ liveIntervals (session m) = 0%nat
  /\ forall r, step m (Tick r) = m.
Proof.
  intros H. destruct (reachable_invariant _ H) as [_ _ H3 _].
  destruct (reachable_flagged _ H) as [_ F2]. repeat split; auto.
  intros r. cbn [step]. now rewrite H3.
Qed.

Lemma progress_is_all_or_nothing_witness :
  generationProgress (state (session inFlight))
  = (if isGenerating (state (session inFlight)) then Fin 100 else Fin 0)
  /\ liveIntervals (session inFlight) = 0%nat
  /\ forall r, step inFlight (Tick r) = inFlight.
Proof.
  apply (progress_is_all_or_nothing inFlight).
  apply (reachable_run initial [EditText "Hello"; Generate host1]).
  apply reachable_initial.
Defined.

(** X4.  On a host without the speech API a call that passes the guard
    fails at once: the failure is reported, nothing reaches the engine,
    no call is left waiting, and the flag, the history and the selection
    are as before the call. *)
Theorem generate_without_speech_api s voices :
  guard (state s) = false ->
  let r := generateVoice (silentHost voices) s in
  snd r = Settled
  /\ reportsFailure s (fst r) = true
  /\ List.filter touchesEngine (newEffects s (fst r)) = []
  /\ isGenerating (state (fst r)) = false
  /\ audioHistory (state (fst r)) = audioHistory (state s)
  /\ currentAudio (state (fst r)) = currentAudio (state s).
Proof.
  intros G r. subst r.
  assert (B : buildUtterance (silentHost voices) (text (state s))
                (voiceSettings (state s))
              = Throw (Error "Speech synthesis not supported in this browser"))
    by reflexivity.
  rewrite (generateVoice_fails _ _ _ G B). cbn [fst snd state isGenerating
    audioHistory currentAudio]. unfold reportsFailure, newEffects. cbn [log].
  rewrite <- !app_assoc, skipn_own. repeat split.
Qed.

Lemma generate_without_speech_api_witness :
  let s := session (run initial [EditText "Hello"]) in
  let r := generateVoice (silentHost []) s in
  snd r = Settled
  /\ reportsFailure s (fst r) = true
  /\ List.filter touchesEngine (newEffects s (fst r)) = []
  /\ isGenerating (state (fst r)) = false
  /\ audioHistory (state (fst r)) = audioHistory (state s)
  /\ currentAudio (state (fst r)) = currentAudio (state s).
Proof.
  apply (generate_without_speech_api (session (run initial [EditText "Hello"])) []).
  vm_compute. reflexivity.
Defined.

End SessionProperties.

(** ** Voice resolution and prosody, further *)

Module ResolutionProperties.
Import JS JSFacts Speech Fixtures SpeechFacts.

(** *** [includes] *)

Lemma prefix_app p s : String.prefix p (p ++ s) = true.
Proof.
  induction p as [|a p IH]; simpl.
  - now destruct s.
  - destruct (ascii_dec a a); [exact IH | congruence].
Qed.

Lemma prefix_split p s :
  String.prefix p s = true -> exists post, s = (p ++ post)%string.
Proof.
  revert s. induction p as [|a p IH]; intros s H.
  - now exists s.
  - destruct s as [|b s]; simpl in H; [discriminate|].
    destruct (ascii_dec a b) as [->|]; [|discriminate].
    destruct (IH _ H) as [post ->]. now exists post.
Qed.

(** [s.includes(sub)] holds exactly when [s] is some text, then [sub],
    then some text. *)
Lemma includes_spec s sub :
  includes s sub = true <-> exists pre post, s = (pre ++ sub ++ post)%string.
Proof.
  split.
  - induction s as [|c s IH]; cbn [includes]; intros H.
    + rewrite orb_false_r in H. apply prefix_split in H as [post ->].
      now exists EmptyString, post.
    + apply orb_true_iff in H as [H|H].
      * apply prefix_split in H as [post ->]. now exists EmptyString, post.
      * destruct (IH H) as (pre & post & ->). now exists (String c pre), post.
  - intros (pre & post & ->). induction pre as [|c pre IH].
    + change ("" ++ sub ++ post)%string with (sub ++ post)%string.
      destruct (sub ++ post)%string eqn:E; cbn [includes];
        rewrite <- E, prefix_app; reflexivity.
    + change (String c pre ++ sub ++ post)%string
        with (String c (pre ++ sub ++ post))%string.
      cbn [includes]. rewrite IH. apply orb_true_r.
Qed.

Lemma string_app_assoc (a b c : string) :
  ((a ++ b) ++ c = a ++ (b ++ c))%string.
Proof.
  induction a as [|x a IH]; [reflexivity|].
  change (String x ((a ++ b) ++ c) = String x (a ++ b ++ c))%string.
  now rewrite IH.
Qed.

Lemma includes_trans s mid sub :
  includes s mid = true -> includes mid sub = true -> includes s sub = true.
Proof.
  rewrite !includes_spec. intros (p1 & q1 & ->) (p2 & q2 & ->).
  exists (p1 ++ p2)%string, (q2 ++ q1)%string.
  now rewrite !string_app_assoc.
Qed.

(** Every list of the map starts with its gender word. *)
Lemma voiceMap_first_fragment voiceId l :
  voiceMap !! voiceId = Some l ->
  exists rest, l = "female" :: rest \/ l = "male" :: rest.
Proof.
  intros H. unfold voiceMap in H. apply elem_of_list_to_map_2 in H.
  repeat (apply elem_of_cons in H as [H|H];
          [injection H as -> ->; eexists; (now left) || (now right)|]).
  now apply elem_of_nil in H.
Qed.

(** X5.  For a voice id that names no inherited member, and a host with
    at least one voice, the resolution returns a voice, and one of the
    host's list. *)
Theorem resolution_returns_listed_voice voiceId voices :
  inherited voiceId = false -> voices <> [] ->
  exists v, selectVoice voiceId voices = Ok (Some v) /\ In v voices.
Proof. apply selectVoice_total. Qed.

Lemma resolution_returns_listed_voice_witness :
  exists v, selectVoice "no such voice" [named "Alex"; named "Samantha"] = Ok (Some v)
            /\ In v [named "Alex"; named "Samantha"].
Proof.
  apply (resolution_returns_listed_voice "no such voice").
  - vm_compute. reflexivity.
  - discriminate.
Defined.

(** X6.  With no voice on the host the resolution selects nothing and
    raises nothing, whatever the id: the utterance is built without a
    voice and left to the engine's default. *)
Theorem resolution_without_voices :
  forall voiceId text s,
    selectVoice voiceId [] = Ok None
    /\ (voice s = voiceId ->
        buildUtterance {| speechSupported := true; getVoices := [] |} text s
        = Ok {| u_text := text; u_voice := None; u_rate := rateOf s;
                u_pitch := pitchOf s; u_volume := Fin 1.0 |}).
Proof.
  intros voiceId text s.
  assert (E : selectVoice voiceId [] = Ok None).
  { unfold selectVoice. destruct (preferredVoices voiceId); reflexivity. }
  split; trivial. intros <-. unfold buildUtterance.
  cbn [speechSupported getVoices negb]. now rewrite E.
Qed.

(** X7.  A voice whose name contains "female" satisfies the fragment
    search of every voice of the catalog, the male ones too, since
    "female" contains "male": at the head of the host's list it is the
    voice selected. *)
Theorem female_name_serves_every_catalog_voice voiceId l v voices :
  voiceMap !! voiceId = Some l ->
  includes (toLowerCase (name v)) "female" = true ->
  selectVoice voiceId (v :: voices) = Ok (Some v).
Proof.
  intros Hm Hf.
  assert (P : preferredVoices voiceId = Fragments l)
    by (unfold preferredVoices, get; now rewrite Hm).
  rewrite (selectVoice_stages _ _ _ P).
  assert (M : existsb (nameHas v) l = true).
  { destruct (voiceMap_first_fragment _ _ Hm) as [rest [-> | ->]];
      cbn [existsb]; unfold nameHas at 1;
      change (toLowerCase "female") with "female";
      change (toLowerCase "male") with "male".
    - now rewrite Hf.
    - rewrite (includes_trans _ "female" "male" Hf); trivial. }
  cbn [List.find]. now rewrite M.
Qed.

Lemma female_name_serves_every_catalog_voice_witness :
  selectVoice "arnold" [named "Google UK English Female"; named "Oliver"]
  = Ok (Some (named "Google UK English Female")).
Proof.
  apply (female_name_serves_every_catalog_voice "arnold"
           ["male"; "paul"; "oliver"; "ralph"]);
    vm_compute; reflexivity.
Defined.

(** *** The clamp *)


Lemma positive_truthy q d : (0 < q)%Q -> or_default (Fin q) d = Fin q.
Proof.
  intros H. unfold or_default, truthy.
  destruct (Qeq_bool q 0) eqn:E; trivial.
  apply Qeq_bool_iff in E. rewrite E in H. now apply Qlt_irrefl in H.
Qed.



(** X9.  A speed or pitch of zero is not clamped up to 0.5 but replaced
    by the default 1.0, while any positive value below 0.5 gives 0.5:
    the rate is not monotone in the speed around zero. *)
Theorem zero_speed_takes_default v st c q :
  (0 < q)%Q -> (q < 0.5)%Q ->
  rateOf {| voice := v; speed := Fin 0; pitch := Fin q;
            stability := st; clarity := c |} = Fin 1.0
  /\ pitchOf {| voice := v; speed := Fin q; pitch := Fin 0;
                stability := st; clarity := c |} = Fin 1.0
  /\ rateOf {| voice := v; speed := Fin q; pitch := Fin 0;
               stability := st; clarity := c |} = Fin 0.5
  /\ pitchOf {| voice := v; speed := Fin 0; pitch := Fin q;
                stability := st; clarity := c |} = Fin 0.5.
Proof.
  intros H0 H1.
  assert (L : lt (Fin q) (Fin 2.0) = true).
  { simpl. apply negb_true_iff. destruct (Qle_bool 2.0 q) eqn:E; trivial.
    apply Qle_bool_iff in E. exfalso.
    apply (Qlt_irrefl q). apply Qlt_le_trans with 0.5%Q; trivial.
    apply Qle_trans with 2.0%Q; trivial. discriminate. }
  assert (K : lt (Fin 0.5) (Fin q) = false).
  { simpl. apply negb_false_iff. apply Qle_bool_iff. now apply Qlt_le_weak. }
  unfold rateOf, pitchOf. cbn [speed pitch].
  rewrite !(positive_truthy q) by trivial.
  repeat split; try (vm_compute; reflexivity);
    unfold Math_min; cbn [is_nan orb]; rewrite L;
    unfold Math_max; cbn [is_nan orb]; now rewrite K.
Qed.

Lemma zero_speed_takes_default_witness :
  rateOf {| voice := "rachel"; speed := Fin 0; pitch := Fin 0.1;
            stability := Fin 0.75; clarity := Fin 0.75 |} = Fin 1.0
  /\ pitchOf {| voice := "rachel"; speed := Fin 0.1; pitch := Fin 0;
                stability := Fin 0.75; clarity := Fin 0.75 |} = Fin 1.0
  /\ rateOf {| voice := "rachel"; speed := Fin 0.1; pitch := Fin 0;
               stability := Fin 0.75; clarity := Fin 0.75 |} = Fin 0.5
  /\ pitchOf {| voice := "rachel"; speed := Fin 0; pitch := Fin 0.1;
                stability := Fin 0.75; clarity := Fin 0.75 |} = Fin 0.5.
Proof.
  apply (zero_speed_takes_default "rachel" (Fin 0.75) (Fin 0.75) 0.1);
    reflexivity.
Defined.

(** X10.  [buildVoiceRequest] cannot be asked for a stability or a
    clarity of zero: zero, like a missing value, gives the default
    0.75, while every negative value gives 0. *)
Theorem zero_stability_takes_default v sp pi q :
  (q < 0)%Q ->
  let request st cl :=
    AudioUtils.buildVoiceRequest
      {| AudioUtils.voice := v; AudioUtils.speed := sp; AudioUtils.pitch := pi;
         AudioUtils.stability := st; AudioUtils.clarity := cl |} in
  AudioUtils.r_stability (request (Some (Fin 0)) None) = Fin 0.75
  /\ AudioUtils.r_similarity_boost (request None (Some (Fin 0))) = Fin 0.75
  /\ AudioUtils.r_stability (request None None) = Fin 0.75
  /\ AudioUtils.r_stability (request (Some (Fin q)) None) = Fin 0
  /\ AudioUtils.r_similarity_boost (request None (Some (Fin q))) = Fin 0.
Proof.
  intros H request. subst request.
  assert (T : or_default (Fin q) (Fin 0.75) = Fin q).
  { unfold or_default, truthy. destruct (Qeq_bool q 0) eqn:E; trivial.
    apply Qeq_bool_iff in E. rewrite E in H. now apply Qlt_irrefl in H. }
  assert (L : lt (Fin q) (Fin 1) = true).
  { simpl. apply negb_true_iff. destruct (Qle_bool 1 q) eqn:E; trivial.
    apply Qle_bool_iff in E. exfalso. apply (Qlt_irrefl q).
    apply Qlt_le_trans with 0%Q; trivial.
    apply Qle_trans with 1%Q; trivial. discriminate. }
  assert (K : lt (Fin 0) (Fin q) = false).
  { simpl. apply negb_false_iff. apply Qle_bool_iff. now apply Qlt_le_weak. }
  repeat split; try (vm_compute; reflexivity);
    unfold AudioUtils.buildVoiceRequest;
    cbn [AudioUtils.r_stability AudioUtils.r_similarity_boost
         AudioUtils.stability AudioUtils.clarity or_default_opt];
    rewrite T; unfold Math_min; cbn [is_nan orb]; rewrite L;
    unfold Math_max; cbn [is_nan orb]; now rewrite K.
Qed.

Lemma zero_stability_takes_default_witness :
  let request st cl :=
    AudioUtils.buildVoiceRequest
      {| AudioUtils.voice := None; AudioUtils.speed := None;
         AudioUtils.pitch := None;
         AudioUtils.stability := st; AudioUtils.clarity := cl |} in
  AudioUtils.r_stability (request (Some (Fin 0)) None) = Fin 0.75
  /\ AudioUtils.r_similarity_boost (request None (Some (Fin 0))) = Fin 0.75
  /\ AudioUtils.r_stability (request None None) = Fin 0.75
  /\ AudioUtils.r_stability (request (Some (Fin (-1))) None) = Fin 0
  /\ AudioUtils.r_similarity_boost (request None (Some (Fin (-1)))) = Fin 0.
Proof.
  apply (zero_stability_takes_default None None None (-1)). reflexivity.
Defined.

End ResolutionProperties.

(** ** Artifacts and the history, further *)

Module ArtifactProperties.
Import JS Speech Page Run PageFacts Fixtures Kept.

Lemma length_app_string (a b : string) :
  String.length (a ++ b)%string = (String.length a + String.length b)%nat.
Proof.
  induction a as [|x a IH]; [reflexivity|].
  change (S (String.length (a ++ b)%string)
          = S (String.length a + String.length b)). now rewrite IH.
Qed.

Lemma length_substring0 n s :
  String.length (substring0 n s) = Nat.min n (String.length s).
Proof.
  unfold substring0. revert s. induction n as [|n IH]; intros [|c s]; simpl; auto.
Qed.

Lemma substring0_all n s :
  (String.length s <= n)%nat -> substring0 n s = s.
Proof.
  unfold substring0. revert s. induction n as [|n IH]; intros [|c s]; simpl;
    intros H; trivial; try lia.
  rewrite IH; trivial. lia.
Qed.

Lemma app_empty_string (a : string) : (a ++ "")%string = a.
Proof.
  induction a as [|x a IH]; [reflexivity|].
  change (String x (a ++ "")%string = String x a). now rewrite IH.
Qed.

(** X11.  The text kept in an artifact is the text of the request when
    that has at most 100 characters, and otherwise its first 100
    characters followed by three dots: never more than 103. *)
Theorem artifact_text_is_cut :
  forall text settings url duration now created,
    let t := Audio.text (newAudio text settings url duration now created) in
    t = (if (String.length text <=? 100)%nat then text
         else (substring0 100 text ++ "...")%string)
    /\ (String.length t <= 103)%nat
    /\ String.length (substring0 100 text) = Nat.min 100 (String.length text).
Proof.
  intros text settings url duration now created t. subst t.
  cbn [newAudio Audio.text].
  destruct (100 <? String.length text)%nat eqn:E.
  - apply Nat.ltb_lt in E.
    assert (L : (String.length text <=? 100)%nat = false)
      by (apply Nat.leb_gt; lia).
    rewrite L. split; [reflexivity|].
    rewrite length_app_string, !length_substring0.
    change (String.length "...") with 3%nat. split; lia.
  - apply Nat.ltb_ge in E.
    assert (L : (String.length text <=? 100)%nat = true)
      by (apply Nat.leb_le; lia).
    rewrite L, app_empty_string, !length_substring0, substring0_all by trivial.
    split; [reflexivity|]. split; lia.
Qed.

(** X12.  Two artifacts have the same id exactly when [Date.now()]
    gave the same number at their completion. *)
Theorem artifact_ids_follow_the_clock :
  forall text1 settings1 url1 duration1 now1 created1
         text2 settings2 url2 duration2 now2 created2,
    Audio.id (newAudio text1 settings1 url1 duration1 now1 created1)
    = Audio.id (newAudio text2 settings2 url2 duration2 now2 created2)
    <-> now1 = now2.
Proof.
  intros. cbn [newAudio Audio.id]. unfold Date_now_toString. split.
  - intros E.
    assert (U : Some (N.to_uint now1) = Some (N.to_uint now2))
      by (rewrite <- !NilEmpty.usu; now rewrite E).
    injection U as U.
    rewrite <- (DecimalN.Unsigned.of_to now1), <- (DecimalN.Unsigned.of_to now2).
    now rewrite U.
  - now intros ->.
Qed.

(** X13.  If the history is ordered newest first and the clock has not
    gone back, it is still ordered newest first after a generation. *)
Theorem history_stays_newest_first text settings url duration now created s :
  newestFirst (audioHistory (state s)) ->
  (forall a, In a (audioHistory (state s)) -> (Audio.createdAt a <= created)%N) ->
  newestFirst (audioHistory (state (fst
    (onLoadedMetadata text settings url duration now created s)))).
Proof.
  intros Hs Ha. rewrite onLoadedMetadata_eq. cbn [fst state audioHistory].
  apply (HistoryClaims.keepLast10_sorted
           (newAudio text settings url duration now created)); trivial.
Qed.

Lemma history_stays_newest_first_witness :
  newestFirst (audioHistory (state (fst
    (onLoadedMetadata "Three" (voiceSettings initialState) "blob:3" (Fin 2) 3 3
       (session (run initial (generation 1 ++ generation 2))))))).
Proof.
  apply (history_stays_newest_first "Three" (voiceSettings initialState)
           "blob:3" (Fin 2) 3 3
           (session (run initial (generation 1 ++ generation 2)))).
  - vm_compute. repeat constructor; discriminate.
  - vm_compute. intros a [<-|[<-|[]]]; vm_compute; discriminate.
Defined.

Lemma same_id_same_artifact (l : list GeneratedAudio) a b :
  List.NoDup (map Audio.id l) -> In a l -> In b l ->
  Audio.id a = Audio.id b -> a = b.
Proof.
  induction l as [|x l IH]; simpl; intros Hn Ha Hb E; [contradiction|].
  inversion Hn as [|? ? Hx Hl]; subst.
  destruct Ha as [->|Ha], Hb as [->|Hb]; trivial.
  - exfalso. apply Hx. rewrite E. now apply in_map.
  - exfalso. apply Hx. rewrite <- E. now apply in_map.
  - now apply IH.
Qed.

(** X14.  An entry removed with [deleteFromHistory] can still be
    selected afterwards: it becomes the current audio although its
    object URL has been revoked. *)
Theorem deleted_entry_is_still_selectable s k a :
  nth_error (audioHistory (state s)) k = Some a ->
  List.NoDup (ids s) ->
  let s' := VoiceHistory.select k (VoiceHistory.deleteFromHistory (Audio.id a) s) in
  currentAudio (state s') = Some a
  /\ In (Audio.audioUrl a) (revoked (log s'))
  /\ audioHistory (state s') = audioHistory (state s).
Proof.
  intros Hk Hn s'. subst s'.
  pose proof (nth_error_In _ _ Hk) as Hin.
  unfold VoiceHistory.deleteFromHistory.
  destruct (List.find _ _) as [b|] eqn:F.
  - apply find_some in F as [Hb Eb]. apply String.eqb_eq in Eb.
    assert (b = a) by (eapply same_id_same_artifact; eauto). subst b.
    unfold VoiceHistory.select, emit, withState. cbn [state]. rewrite Hk.
    cbn [state log currentAudio audioHistory setCurrentAudio].
    repeat split. rewrite revoked_app. apply in_or_app. right. now left.
  - exfalso. apply (find_none _ _ F) in Hin.
    now rewrite String.eqb_refl in Hin.
Qed.

Lemma deleted_entry_is_still_selectable_witness :
  let s := session (run initial (generation 1 ++ generation 2)) in
  let a := newAudio "Text number 1" (voiceSettings initialState) "blob:1"
             (Fin 2) 1 1 in
  let s' := VoiceHistory.select 1 (VoiceHistory.deleteFromHistory (Audio.id a) s) in
  currentAudio (state s') = Some a
  /\ In (Audio.audioUrl a) (revoked (log s'))
  /\ audioHistory (state s') = audioHistory (state s).
Proof.
  apply (deleted_entry_is_still_selectable
           (session (run initial (generation 1 ++ generation 2))) 1).
  - vm_compute. reflexivity.
  - vm_compute. repeat constructor; simpl; intuition discriminate.
Defined.

End ArtifactProperties.

(** ** The player, further *)

Module PlayerProperties.
Import JS AudioPlayer PlayerControls.

Lemma act_keeps_stopped audio p a :
  isPlayEvent a = false -> isPlaying (state p) = false ->
  isPlaying (state (act audio p a)) = false.
Proof.
  intros Ha Hp. destruct p as [[ip ct vo pr il] mt rq].
  cbn [state isPlaying] in Hp. subst ip.
  destruct a; try discriminate;
    cbv [act togglePlayPause stop seek changeVolume changePlaybackRate
         bindAudio handleLoadedData handleTimeUpdate handleEnded handlePause
         withState ask state mounted requests isPlaying isLoading volume
         playbackRate setIsPlaying setCurrentTime setVolume setPlaybackRate
         setIsLoading];
    try reflexivity.
  - now destruct mt, il.
  - now destruct mt.
  - now destruct mt, il.
  - now destruct (same vo vol), mt.
  - now destruct (same pr rate), mt.
Qed.

(** X15.  The component never raises [isPlaying] on its own: starting
    from a player that is not playing, whatever the user does and
    whatever the element reports, the flag stays down until the element
    fires [play]. *)
Theorem isPlaying_only_after_play_event audio acts p :
  isPlaying (state p) = false ->
  forallb (fun a => negb (isPlayEvent a)) acts = true ->
  isPlaying (state (fold_left (act audio) acts p)) = false.
Proof.
  revert p. induction acts as [|a acts IH]; intros p Hp Ha; simpl in *; trivial.
  apply andb_true_iff in Ha as [Ha Hs]. apply negb_true_iff in Ha.
  apply IH; trivial. now apply act_keeps_stopped.
Qed.

Lemma isPlaying_only_after_play_event_witness :
  isPlaying (state (fold_left
    (act (Page.newAudio "Hello" (Page.voiceSettings Page.initialState)
            "blob:1" (Fin 2) 1 1))
    [LoadedData; Toggle; Toggle; Seek (Fin 1); Volume (Fin 0.5); Stop; Toggle]
    mountedPlayer)) = false.
Proof.
  apply (isPlaying_only_after_play_event
           (Page.newAudio "Hello" (Page.voiceSettings Page.initialState)
              "blob:1" (Fin 2) 1 1)
           [LoadedData; Toggle; Toggle; Seek (Fin 1); Volume (Fin 0.5); Stop; Toggle]
           mountedPlayer); reflexivity.
Defined.

(** X16.  Moving the volume or picking another speed while an audio
    plays starts it over: the effect that binds the audio runs again, so
    the source is set anew and the player is back to loading, at
    position 0 and not playing. *)
Theorem volume_change_restarts_audio audio vol rate p :
  playing p ->
  same (volume (state p)) vol = false ->
  same (playbackRate (state p)) rate = false ->
  let q := changeVolume audio vol p in
  let r := changePlaybackRate audio rate p in
  (isLoading (state q) = true /\ isPlaying (state q) = false
   /\ currentTime (state q) = Fin 0 /\ volume (state q) = vol
   /\ requests q = requests p ++ [SetVolume vol; SetSrc (Audio.audioUrl audio);
                                  SetVolume vol;
                                  SetPlaybackRate (playbackRate (state p))])
  /\ (isLoading (state r) = true /\ isPlaying (state r) = false
      /\ currentTime (state r) = Fin 0 /\ playbackRate (state r) = rate
      /\ requests r = requests p ++ [SetPlaybackRate rate;
                                     SetSrc (Audio.audioUrl audio);
                                     SetVolume (volume (state p));
                                     SetPlaybackRate rate]).
Proof.
  intros (M & L & P) Hv Hr q r. subst q r.
  destruct p as [st mt rq]. cbn [mounted state] in *. subst mt.
  unfold changeVolume, changePlaybackRate, bindAudio.
  cbn [state mounted withState ask requests]. rewrite Hv, Hr.
  cbn [negb state mounted withState ask requests setVolume setPlaybackRate
       setIsPlaying setCurrentTime setIsLoading isLoading isPlaying
       currentTime volume playbackRate].
  rewrite <- !app_assoc. repeat split.
Qed.

Lemma volume_change_restarts_audio_witness :
  let audio := Page.newAudio "Hello" (Page.voiceSettings Page.initialState)
                 "blob:1" (Fin 2) 1 1 in
  let p := handlePlay (togglePlayPause (handleLoadedData
             (bindAudio audio mountedPlayer))) in
  let q := changeVolume audio (Fin 0.5) p in
  let r := changePlaybackRate audio (Fin 1.5) p in
  (isLoading (state q) = true /\ isPlaying (state q) = false
   /\ currentTime (state q) = Fin 0 /\ volume (state q) = Fin 0.5
   /\ requests q = requests p ++ [SetVolume (Fin 0.5);
                                  SetSrc (Audio.audioUrl audio);
                                  SetVolume (Fin 0.5);
                                  SetPlaybackRate (playbackRate (state p))])
  /\ (isLoading (state r) = true /\ isPlaying (state r) = false
      /\ currentTime (state r) = Fin 0 /\ playbackRate (state r) = Fin 1.5
      /\ requests r = requests p ++ [SetPlaybackRate (Fin 1.5);
                                     SetSrc (Audio.audioUrl audio);
                                     SetVolume (volume (state p));
                                     SetPlaybackRate (Fin 1.5)]).
Proof.
  apply (volume_change_restarts_audio
           (Page.newAudio "Hello" (Page.voiceSettings Page.initialState)
              "blob:1" (Fin 2) 1 1)
           (Fin 0.5) (Fin 1.5)
           (handlePlay (togglePlayPause (handleLoadedData
              (bindAudio
                 (Page.newAudio "Hello" (Page.voiceSettings Page.initialState)
                    "blob:1" (Fin 2) 1 1)
                 mountedPlayer))))).
  - repeat split.
  - reflexivity.
  - reflexivity.
Defined.

End PlayerProperties.

(** ** Text helpers *)

Module TextProperties.
Import JS JSFacts Page Text.

(** *** [trim] *)

Lemma trimStart_head s c r :
  trimStart s = String c r -> isWhiteSpace c = false.
Proof.
  induction s as [|d s IH]; simpl; [discriminate|].
  destruct (isWhiteSpace d) eqn:E; auto. intros [= -> _]. exact E.
Qed.

Lemma trimEnd_head c s d r : trimEnd (String c s) = String d r -> d = c.
Proof.
  simpl. destruct (trimEnd s).
  - destruct (isWhiteSpace c); [discriminate|]. now intros [= ->].
  - now intros [= ->].
Qed.

Lemma trimEnd_keeps_head c s :
  isWhiteSpace c = false -> exists r, trimEnd (String c s) = String c r.
Proof.
  intros H. simpl. destruct (trimEnd s); [rewrite H|]; eauto.
Qed.

Lemma trim_head s c r : trim s = String c r -> isWhiteSpace c = false.
Proof.
  unfold trim. destruct (trimStart s) as [|d u] eqn:E; [discriminate|].
  intros H. apply trimEnd_head in H as ->. eapply trimStart_head; eauto.
Qed.

Lemma trimStart_id c s :
  isWhiteSpace c = false -> trimStart (String c s) = String c s.
Proof. intros H. simpl. now rewrite H. Qed.

Lemma trimEnd_idem s : trimEnd (trimEnd s) = trimEnd s.
Proof.
  induction s as [|c s IH]; [reflexivity|].
  cbn [trimEnd]. destruct (trimEnd s) as [|d t] eqn:E.
  - destruct (isWhiteSpace c) eqn:W; [reflexivity|].
    cbn [trimEnd]. now rewrite W.
  - cbn [trimEnd] in *. now rewrite IH.
Qed.

(** Trimming twice is trimming once. *)
Lemma trim_idem s : trim (trim s) = trim s.
Proof.
  destruct (trim s) as [|c r] eqn:E; [reflexivity|].
  pose proof (trim_head _ _ _ E) as W.
  unfold trim at 1. rewrite (trimStart_id _ _ W), <- E.
  unfold trim. apply trimEnd_idem.
Qed.

(** *** The word counter *)

Lemma splitWhiteSpace_nonempty s b : splitWhiteSpace s b <> [].
Proof.
  revert b. induction s as [|c s IH]; intros b; simpl; [discriminate|].
  destruct (isWhiteSpace c).
  - destruct b; [apply IH | discriminate].
  - destruct (splitWhiteSpace s false); discriminate.
Qed.

Lemma wordCount_zero text :
  (wordCount text =? 0)%nat = negb (truthy_string (trim text)).
Proof.
  unfold wordCount. destruct (trim text) as [|c r] eqn:E; [reflexivity|].
  pose proof (trim_head _ _ _ E) as W. cbn [splitWhiteSpace]. rewrite W.
  destruct (splitWhiteSpace r false); reflexivity.
Qed.

(** X17.  The guard of [generateVoice] and the word counter shown above
    the text box agree: a call is let through exactly when the counter
    shows at least one word and no generation is under way. *)
Theorem guard_follows_word_count :
  forall st, guard st = (wordCount (text st) =? 0)%nat || isGenerating st.
Proof. intros st. unfold guard. now rewrite wordCount_zero. Qed.

(** *** [cleanTextForTTS] *)

Lemma plainSpace_space : plainSpace " " = true.
Proof. reflexivity. Qed.

Lemma collapse_plain s b : allChars plainSpace (collapseWhiteSpace s b) = true.
Proof.
  revert b. induction s as [|c s IH]; intros b; simpl; trivial.
  destruct (isWhiteSpace c) eqn:W.
  - destruct b; simpl; auto.
  - simpl. unfold plainSpace at 1. rewrite W. simpl. auto.
Qed.

Lemma squeeze_keeps p s :
  allChars p s = true -> allChars p (squeezePunctuation s) = true.
Proof.
  induction s as [|c s IH]; simpl; trivial. intros H.
  apply andb_true_iff in H as [Hc Hs].
  destruct (isPunct c && startsWith isPunct s); simpl; auto.
  now rewrite Hc, IH.
Qed.

Lemma spacing_keeps p s :
  p " "%char = true ->
  allChars p s = true -> allChars p (spaceAfterPunctuation s) = true.
Proof.
  intros Hp. induction s as [|c s IH]; simpl; trivial. intros H.
  apply andb_true_iff in H as [Hc Hs].
  destruct (isPunct c && startsWith isUpper s); simpl; now rewrite Hc, ?Hp, IH.
Qed.

Lemma strip_keeps p s b :
  allChars p s = true -> allChars p (stripTags s b) = true.
Proof.
  revert b. induction s as [|c s IH]; intros b; simpl; trivial. intros H.
  apply andb_true_iff in H as [Hc Hs].
  destruct b; [now apply IH|].
  destruct (Ascii.eqb c "<" && hasGreaterThan s); [now apply IH|].
  simpl. now rewrite Hc, IH.
Qed.

Lemma trimStart_keeps p s :
  allChars p s = true -> allChars p (trimStart s) = true.
Proof.
  induction s as [|c s IH]; simpl; trivial. intros H.
  destruct (isWhiteSpace c); trivial.
  apply andb_true_iff in H as [_ Hs]. auto.
Qed.

Lemma trimEnd_keeps p s :
  allChars p s = true -> allChars p (trimEnd s) = true.
Proof.
  induction s as [|c s IH]; simpl; trivial. intros H.
  apply andb_true_iff in H as [Hc Hs]. specialize (IH Hs).
  destruct (trimEnd s).
  - destruct (isWhiteSpace c); simpl; trivial. now rewrite Hc.
  - cbn [allChars] in *. now rewrite Hc.
Qed.

(** X18.  The cleaned text has no white space at either end, and the
    only white space inside it is the plain space: tabs, line breaks and
    no-break spaces are gone. *)
Theorem cleaned_text_is_trimmed :
  forall text,
    trim (cleanTextForTTS text) = cleanTextForTTS text
    /\ allChars plainSpace (cleanTextForTTS text) = true.
Proof.
  intros text. unfold cleanTextForTTS. split; [apply trim_idem|].
  unfold trim. apply trimEnd_keeps, trimStart_keeps, strip_keeps.
  apply spacing_keeps; [reflexivity|]. apply squeeze_keeps, collapse_plain.
Qed.

Lemma strip_no_gt s b :
  hasGreaterThan s = false -> hasGreaterThan (stripTags s b) = false.
Proof.
  revert b. induction s as [|c s IH]; intros b; simpl; trivial. intros H.
  apply orb_false_iff in H as [Hc Hs].
  destruct b; [now apply IH|].
  rewrite Hs, andb_false_r. simpl. now rewrite Hc, IH.
Qed.

Lemma strip_tagFree s b : tagFree (stripTags s b) = true.
Proof.
  revert b. induction s as [|c s IH]; intros b; simpl; trivial.
  destruct b; [apply IH|].
  destruct (Ascii.eqb c "<" && hasGreaterThan s) eqn:E; [apply IH|].
  cbn [tagFree]. rewrite IH, andb_true_r. apply negb_true_iff.
  apply andb_false_iff in E as [E|E].
  - now rewrite E.
  - rewrite (strip_no_gt _ _ E). apply andb_false_r.
Qed.

Lemma trimStart_tagFree s : tagFree s = true -> tagFree (trimStart s) = true.
Proof.
  induction s as [|c s IH]; simpl; trivial. intros H.
  destruct (isWhiteSpace c); trivial.
  apply andb_true_iff in H as [_ Hs]. auto.
Qed.

Lemma trimEnd_no_gt s :
  hasGreaterThan s = false -> hasGreaterThan (trimEnd s) = false.
Proof.
  induction s as [|c s IH]; simpl; trivial. intros H.
  apply orb_false_iff in H as [Hc Hs]. specialize (IH Hs).
  destruct (trimEnd s) as [|d t].
  - destruct (isWhiteSpace c); simpl; trivial. now rewrite Hc.
  - change (Ascii.eqb c ">" || hasGreaterThan (String d t) = false).
    now rewrite Hc, IH.
Qed.

Lemma trimEnd_tagFree s : tagFree s = true -> tagFree (trimEnd s) = true.
Proof.
  induction s as [|c s IH]; simpl; trivial. intros H.
  apply andb_true_iff in H as [Hc Hs]. specialize (IH Hs).
  apply negb_true_iff in Hc.
  destruct (trimEnd s) as [|d t] eqn:E.
  - destruct (isWhiteSpace c); simpl; trivial.
    now rewrite andb_false_r.
  - change (negb (Ascii.eqb c "<" && hasGreaterThan (String d t))
            && tagFree (String d t) = true).
    rewrite IH, andb_true_r. apply negb_true_iff.
    apply andb_false_iff in Hc as [Hc|Hc]; [now rewrite Hc|].
    rewrite <- E, (trimEnd_no_gt _ Hc). apply andb_false_r.
Qed.

Lemma tagFree_strip s : tagFree s = true -> stripTags s false = s.
Proof.
  induction s as [|c s IH]; simpl; trivial. intros H.
  apply andb_true_iff in H as [Hc Hs]. apply negb_true_iff in Hc.
  now rewrite Hc, IH.
Qed.

(** X19.  No tag is left in the cleaned text: no [<] in it has a [>]
    anywhere after it, so removing tags once more changes nothing. *)
Theorem cleaned_text_has_no_tag :
  forall text,
    tagFree (cleanTextForTTS text) = true
    /\ stripTags (cleanTextForTTS text) false = cleanTextForTTS text.
Proof.
  intros text.
  assert (T : tagFree (cleanTextForTTS text) = true).
  { unfold cleanTextForTTS, trim.
    apply trimEnd_tagFree, trimStart_tagFree, strip_tagFree. }
  split; [exact T | now apply tagFree_strip].
Qed.

Lemma collapse_blank s :
  allWhiteSpace s = true ->
  collapseWhiteSpace s true = EmptyString
  /\ (collapseWhiteSpace s false = EmptyString
      \/ collapseWhiteSpace s false = " ").
Proof.
  induction s as [|c s IH]; simpl; [auto|]. intros H.
  apply andb_true_iff in H as [Hc Hs]. rewrite Hc.
  destruct (IH Hs) as [-> _]. auto.
Qed.

(** X20.  A text that is empty or made of white space only is cleaned
    to the empty text. *)
Theorem blank_text_cleans_to_empty text :
  allWhiteSpace text = true -> cleanTextForTTS text = EmptyString.
Proof.
  intros H. unfold cleanTextForTTS.
  destruct (collapse_blank _ H) as [_ [-> | ->]]; reflexivity.
Qed.

Lemma blank_text_cleans_to_empty_witness :
  cleanTextForTTS "   	  " = EmptyString.
Proof. apply (blank_text_cleans_to_empty "   	  "). reflexivity. Defined.

(** X21.  The name [downloadAudio] saves under always has a dot: a name
    without one gets ".mp3" at its end, a name with one is kept as it
    is, whatever comes after its dot, and with no name given the file
    is "voice.mp3"; applying the rule again changes nothing.  The names
    the history and the player use pass unchanged. *)
Theorem download_name_has_extension :
  forall filename a f pre post,
    includes (finalFilename filename) "." = true
    /\ finalFilename (Some (finalFilename filename)) = finalFilename filename
    /\ finalFilename (Some (artifactFilename a)) = artifactFilename a
    /\ finalFilename None = "voice.mp3"
    /\ (includes f "." = false -> finalFilename (Some f) = (f ++ ".mp3")%string)
    /\ ((forall x y, f <> (x ++ "." ++ y)%string) ->
        finalFilename (Some f) = (f ++ ".mp3")%string)
    /\ finalFilename (Some (pre ++ "." ++ post)%string) = (pre ++ "." ++ post)%string.
Proof.
  intros filename a f pre post.
  assert (D : includes (finalFilename filename) "." = true).
  { unfold finalFilename.
    set (g := match filename with Some g => g | None => "voice" end).
    destruct (includes g ".") eqn:E; cbn [negb]; [exact E|].
    apply ResolutionProperties.includes_spec. now exists g, "mp3". }
  assert (K : forall g, includes g "." = true -> finalFilename (Some g) = g).
  { intros g I. unfold finalFilename. now rewrite I. }
  assert (N : includes f "." = false -> finalFilename (Some f) = (f ++ ".mp3")%string).
  { intros I. unfold finalFilename. now rewrite I. }
  split; [exact D|]. split; [now apply K|]. split; [|split; [reflexivity|]].
  - apply K, ResolutionProperties.includes_spec.
    exists ("voice-" ++ Audio.id a)%string, "mp3". unfold artifactFilename.
    now rewrite ResolutionProperties.string_app_assoc.
  - split; [exact N|]. split.
    + intros H. apply N. destruct (includes f ".") eqn:I; trivial.
      apply ResolutionProperties.includes_spec in I.
      destruct I as (x & y & E). now destruct (H x y).
    + apply K, ResolutionProperties.includes_spec. now exists pre, post.
Qed.

Lemma download_name_has_extension_witness :
  includes "report" "." = false
  /\ (forall x y, "report" <> (x ++ "." ++ y)%string)
  /\ finalFilename (Some "report") = "report.mp3"
  /\ finalFilename (Some "take.1.wav") = "take.1.wav".
Proof.
  assert (H : forall x y, "report" <> (x ++ "." ++ y)%string).
  { intros x y E.
    assert (I : includes "report" "." = true)
      by (apply ResolutionProperties.includes_spec; now exists x, y).
    discriminate I. }
  destruct (download_name_has_extension
              None (Page.newAudio "Hello" (Page.voiceSettings Page.initialState)
                      "blob:1" (JS.Fin 1) 1 1)
              "report" "take" "1.wav")
    as (_ & _ & _ & _ & N & M & K).
  split; [reflexivity|]. split; [exact H|].
  split; [exact (M H) | exact K].
Defined.

End TextProperties.

(** ** The text box *)

Module TextInputProperties.
Import JS TextInput.

Lemma substring_all s : String.substring 0 (String.length s) s = s.
Proof. induction s as [|c s IH]; simpl; congruence. Qed.

Lemma substring_none s : String.substring 0 0 s = EmptyString.
Proof. now destruct s. Qed.

(** A text is what comes before a selection, the selection, and what
    comes after it. *)
Lemma substring_three s :
  forall a b, (a <= b)%nat -> (b <= String.length s)%nat ->
    s = (String.substring 0 a s ++ String.substring a (b - a) s
         ++ String.substring b (String.length s - b) s)%string.
Proof.
  induction s as [|c s IH]; intros a b Hab Hb.
  - simpl in Hb. assert (b = 0%nat) by lia. assert (a = 0%nat) by lia.
    subst. reflexivity.
  - destruct a as [|a].
    + destruct b as [|b].
      * cbn [String.substring Nat.sub String.length].
        change (String c s = String c (String.substring 0 (String.length s) s)).
        now rewrite substring_all.
      * cbn [String.length] in Hb.
        specialize (IH 0%nat b ltac:(lia) ltac:(lia)).
        rewrite Nat.sub_0_r, substring_none in IH.
        change (s = (String.substring 0 b s
                     ++ String.substring b (String.length s - b) s)%string) in IH.
        change (String c s
                = String c (String.substring 0 b s
                            ++ String.substring b (String.length s - b) s)%string).
        f_equal. exact IH.
    + destruct b as [|b]; [lia|]. cbn [String.length] in Hb.
      specialize (IH a b ltac:(lia) ltac:(lia)).
      change (String c s
              = String c (String.substring 0 a s
                          ++ String.substring a (b - a) s
                          ++ String.substring b (String.length s - b) s)%string).
      f_equal. exact IH.
Qed.

Lemma length_substring s : forall n m,
  String.length (String.substring n m s) = Nat.min m (String.length s - n).
Proof.
  induction s as [|c s IH]; intros n m.
  - destruct n, m; reflexivity.
  - destruct n as [|n].
    + destruct m as [|m]; [reflexivity|].
      cbn [String.substring String.length]. rewrite IH. lia.
    + cbn [String.substring String.length]. rewrite IH. reflexivity.
Qed.

Lemma substring_in_range s a b :
  (a <= b)%nat -> (b <= String.length s)%nat ->
  substring s 0 a = String.substring 0 a s
  /\ substring s a b = String.substring a (b - a) s
  /\ substringFrom s b = String.substring b (String.length s - b) s.
Proof.
  intros Hab Hb. unfold substringFrom, substring.
  assert (Ea : Nat.min a (String.length s) = a) by lia.
  assert (Eb : Nat.min b (String.length s) = b) by lia.
  rewrite Nat.min_id, Ea, Eb, Nat.min_0_l, Nat.max_0_l, Nat.sub_0_r.
  assert (Eab : Nat.min a b = a) by lia.
  assert (Mab : Nat.max a b = b) by lia.
  assert (Ebl : Nat.min b (String.length s) = b) by lia.
  assert (Mbl : Nat.max b (String.length s) = String.length s) by lia.
  now rewrite Eab, Mab, Ebl, Mbl.
Qed.

(** X22.  [formatText] and [insertText] change the selection and
    nothing else: the text before it and the text after it are kept,
    the selection is wrapped (or replaced by the inserted text), and
    [formatText] does nothing when the selection is empty. *)
Theorem formatText_changes_selection_only format inserted value selStart selEnd :
  (selStart <= selEnd)%nat -> (selEnd <= String.length value)%nat ->
  exists before selected after,
    value = (before ++ selected ++ after)%string
    /\ String.length before = selStart
    /\ String.length selected = (selEnd - selStart)%nat
    /\ formatText format value selStart selEnd
       = (if truthy_string selected
          then Some (before ++ formatted format selected ++ after)%string
          else None)
    /\ insertText inserted value selStart selEnd
       = (before ++ inserted ++ after)%string.
Proof.
  intros Hab Hb.
  destruct (substring_in_range value selStart selEnd Hab Hb) as (E1 & E2 & E3).
  exists (String.substring 0 selStart value),
         (String.substring selStart (selEnd - selStart) value),
         (String.substring selEnd (String.length value - selEnd) value).
  split; [now apply substring_three|].
  rewrite !length_substring. split; [lia|]. split; [lia|].
  unfold formatText, insertText. now rewrite E1, E2, E3.
Qed.

Lemma formatText_changes_selection_only_witness :
  exists before selected after,
    "hello world" = (before ++ selected ++ after)%string
    /\ String.length before = 6%nat
    /\ String.length selected = (11 - 6)%nat
    /\ formatText "emphasis" "hello world" 6 11
       = (if truthy_string selected
          then Some (before ++ formatted "emphasis" selected ++ after)%string
          else None)
    /\ insertText "... " "hello world" 6 11
       = (before ++ "... " ++ after)%string.
Proof.
  apply (formatText_changes_selection_only "emphasis" "... " "hello world" 6 11);
    simpl; lia.
Defined.

(** A format the switch does not know leaves the text as it is. *)
Lemma formatText_unknown_format format value selStart selEnd :
  (selStart <= selEnd)%nat -> (selEnd <= String.length value)%nat ->
  String.eqb format "emphasis" = false -> String.eqb format "pause" = false ->
  String.eqb format "slow" = false ->
  formatText format value selStart selEnd = None
  \/ formatText format value selStart selEnd = Some value.
Proof.
  intros Hab Hb F1 F2 F3.
  destruct (substring_in_range value selStart selEnd Hab Hb) as (E1 & E2 & E3).
  unfold formatText. rewrite E1, E2, E3.
  destruct (truthy_string _); [right|now left].
  unfold formatted. rewrite F1, F2, F3. f_equal. symmetry.
  now apply substring_three.
Qed.

End TextInputProperties.

(** ** The voice preview *)

Module PreviewProperties.
Import JS JSFacts Speech Fixtures.

Lemma find_none_of {A} (P : A -> bool) (l : list A) :
  (forall x, In x l -> P x = false) -> List.find P l = None.
Proof.
  induction l as [|a l IH]; simpl; intros H; trivial.
  rewrite (H a) by now left. apply IH. intros x Hx. apply H. now right.
Qed.

(** Whatever the gender test accepts, the fragment test accepts: the
    gender word is the last fragment of every list. *)
Lemma preview_gender_is_a_fragment voiceId l v :
  Preview.preferredVoices voiceId = Fragments l ->
  Preview.genderMatch (Preview.isFemale l voiceId) v = true ->
  existsb (nameHas v) l = true.
Proof.
  unfold Preview.preferredVoices, get.
  destruct (Preview.voiceMap !! voiceId) as [l'|] eqn:Hm.
  - intros [= <-]. unfold Preview.voiceMap in Hm.
    apply elem_of_list_to_map_2 in Hm.
    repeat (apply elem_of_cons in Hm as [Hm|Hm];
      [injection Hm as -> ->;
       match goal with
       | |- context [Preview.isFemale ?fs ?i] =>
           let b := eval vm_compute in (Preview.isFemale fs i) in
           change (Preview.isFemale fs i) with b
       end;
       unfold Preview.genderMatch; intros H;
       cbn [existsb]; unfold nameHas;
       change (toLowerCase "female") with "female";
       change (toLowerCase "male") with "male";
       rewrite H; repeat (rewrite orb_true_r || rewrite orb_true_l);
       reflexivity|]).
    now apply elem_of_nil in Hm.
  - destruct (inherited voiceId); [discriminate|]. intros [= <-].
    change (Preview.isFemale ["female"] voiceId) with true.
    unfold Preview.genderMatch. intros H.
    cbn [existsb]. unfold nameHas.
    change (toLowerCase "female") with "female". now rewrite H.
Qed.

(** X23.  In the preview the gender fallback never selects anything:
    for a voice id that names no inherited member the preview takes the
    first voice that matches one of the id's fragments and, when none
    does, no voice at all, also on a host that has voices. *)
Theorem preview_fallback_adds_nothing voiceId voices :
  inherited voiceId = false ->
  exists l,
    Preview.preferredVoices voiceId = Fragments l
    /\ Preview.selectVoice voiceId voices
       = Ok (List.find (fun v => existsb (nameHas v) l) voices).
Proof.
  intros Hk.
  assert (P : exists l, Preview.preferredVoices voiceId = Fragments l).
  { unfold Preview.preferredVoices, get. rewrite Hk.
    destruct (Preview.voiceMap !! voiceId); eauto. }
  destruct P as [l P]. exists l. split; trivial.
  unfold Preview.selectVoice. rewrite P. f_equal.
  destruct (List.find (fun v => existsb (nameHas v) l) voices) eqn:F;
    [reflexivity|].
  cbn [orElse]. apply find_none_of. intros v Hv.
  pose proof (find_none _ _ F v Hv) as N. cbv beta in N.
  destruct (Preview.genderMatch (Preview.isFemale l voiceId) v) eqn:G; trivial.
  rewrite (preview_gender_is_a_fragment _ _ _ P G) in N. discriminate.
Qed.

Lemma preview_fallback_adds_nothing_witness :
  exists l,
    Preview.preferredVoices "josh" = Fragments l
    /\ Preview.selectVoice "josh" [named "Alex"; named "Samantha"]
       = Ok (List.find (fun v => existsb (nameHas v) l)
               [named "Alex"; named "Samantha"]).
Proof.
  apply (preview_fallback_adds_nothing "josh"). vm_compute. reflexivity.
Defined.

End PreviewProperties.

(** ** A generation from end to end *)

Module FlowProperties.
Import JS JSFacts Speech Page Run PageFacts Fixtures Kept.

Lemma waiting_step m e t st url :
  invariant m -> flights m = [AwaitMetadata t st url] -> notMetadata e = true ->
  flights (step m e) = flights m
  /\ isGenerating (state (session (step m e))) = true
  /\ audioHistory (state (session (step m e))) = audioHistory (state (session m)).
Proof.
  intros [H1 H2 H3 H4] F Hn.
  assert (G : isGenerating (state (session m)) = true)
    by (apply H2; rewrite F; discriminate).
  destruct e as [x|v|k|audioId|h|r|i u|i code|i d now created];
    try discriminate; cbn [step].
  - repeat split; trivial.
  - repeat split; trivial.
  - destruct (select_state k (session m)) as (Eg & Eh & _ & El).
    cbn [onSession session flights]. rewrite Eg, Eh. repeat split; trivial.
  - cbn [onSession session flights].
    destruct (deleteFromHistory_state audioId (session m)) as (-> & _).
    repeat split; trivial.
  - assert (Gd : guard (state (session m)) = true)
      by (unfold guard; rewrite G; apply orb_true_r).
    rewrite (generateVoice_guarded _ _ Gd). repeat split; trivial.
  - rewrite H3. repeat split; trivial.
  - rewrite F. destruct i as [|[|i]]; repeat split; trivial.
  - rewrite F. destruct i as [|[|i]]; repeat split; trivial.
Qed.

(** X24.  Once the speech has ended, only the [loadedmetadata] event
    of the audio element finishes the generation: whatever else happens,
    the call keeps waiting, [isGenerating] stays up, the history is
    untouched and no further generation can start. *)
Theorem only_metadata_ends_the_wait m es t st url :
  reachable m -> flights m = [AwaitMetadata t st url] ->
  forallb notMetadata es = true ->
  flights (run m es) = [AwaitMetadata t st url]
  /\ isGenerating (state (session (run m es))) = true
  /\ audioHistory (state (session (run m es))) = audioHistory (state (session m)).
Proof.
  revert m. induction es as [|e es IH]; intros m Hr F Hn; simpl in *.
  - repeat split; trivial.
    destruct (reachable_invariant _ Hr) as [_ H2 _ _]. apply H2.
    rewrite F. discriminate.
  - apply andb_true_iff in Hn as [He Hs].
    destruct (waiting_step m e t st url (reachable_invariant _ Hr) F He)
      as (Wf & _ & Wh).
    destruct (IH (step m e)) as (I1 & I2 & I3); trivial.
    + now constructor.
    + now rewrite Wf.
    + repeat split; trivial. now rewrite I3.
Qed.

Lemma only_metadata_ends_the_wait_witness :
  let m := run inFlight [SpeechEnded 0 "blob:1"] in
  let es := [Generate host1; SpeechFailed 0 "interrupted"; EditText "Again";
             Generate host1; Tick (fun _ => Fin 50); SpeechEnded 0 "blob:2"] in
  flights (run m es)
  = [AwaitMetadata "Hello" (voiceSettings initialState) "blob:1"]
  /\ isGenerating (state (session (run m es))) = true
  /\ audioHistory (state (session (run m es))) = audioHistory (state (session m)).
Proof.
  apply (only_metadata_ends_the_wait (run inFlight [SpeechEnded 0 "blob:1"])).
  - apply reachable_run.
    apply (reachable_run initial [EditText "Hello"; Generate host1]).
    apply reachable_initial.
  - vm_compute. reflexivity.
  - reflexivity.
Defined.

Lemma edits_keep m es :
  forallb isEdit es = true ->
  flights (run m es) = flights m
  /\ log (session (run m es)) = log (session m)
  /\ liveIntervals (session (run m es)) = liveIntervals (session m)
  /\ isGenerating (state (session (run m es))) = isGenerating (state (session m))
  /\ generationProgress (state (session (run m es)))
     = generationProgress (state (session m))
  /\ audioHistory (state (session (run m es))) = audioHistory (state (session m))
  /\ currentAudio (state (session (run m es))) = currentAudio (state (session m)).
Proof.
  revert m. induction es as [|e es IH]; intros m H; simpl in *; [tauto|].
  apply andb_true_iff in H as [He Hs].
  destruct (IH (step m e) Hs) as (I1 & I2 & I3 & I4 & I5 & I6 & I7).
  rewrite I1, I2, I3, I4, I5, I6, I7.
  destruct e; try discriminate; repeat split.
Qed.

(** X25.  A generation that succeeds adds exactly one artifact, at the
    head of the history, and selects it; the artifact carries the text
    and the settings of the moment the call was made, whatever the user
    typed or changed while it ran, and the URL the host handed out. *)
Theorem generation_records_the_request m h u edits1 edits2 url duration now created :
  flights m = [] ->
  guard (state (session m)) = false ->
  buildUtterance h (text (state (session m))) (voiceSettings (state (session m)))
  = Ok u ->
  forallb isEdit edits1 = true -> forallb isEdit edits2 = true ->
  let a := newAudio (text (state (session m))) (voiceSettings (state (session m)))
             url duration now created in
  let m' := run m ([Generate h] ++ edits1 ++ [SpeechEnded 0 url] ++ edits2
                   ++ [MetadataLoaded 0 duration now created]) in
  audioHistory (state (session m')) = a :: firstn 9 (audioHistory (state (session m)))
  /\ currentAudio (state (session m')) = Some a
  /\ isGenerating (state (session m')) = false
  /\ flights m' = []
  /\ log (session m')
     = log (session m) ++ preamble
       ++ [SpeechCancel; SpeakScheduled u; CreateObjectURL url; NewAudio url;
           Progress (Fin 0)].
Proof.
  intros F G B E1 E2 a m'. subst a m'. unfold run.
  rewrite !fold_left_app. cbn [fold_left].
  fold (run (step m (Generate h)) edits1).
  set (m1 := step m (Generate h)).
  assert (S1 : flights m1 = [AwaitSpeech (text (state (session m)))
                               (voiceSettings (state (session m))) u]
               /\ log (session m1)
                  = (log (session m) ++ preamble) ++ [SpeechCancel; SpeakScheduled u]
               /\ audioHistory (state (session m1)) = audioHistory (state (session m))).
  { subst m1. cbn [step]. rewrite (generateVoice_suspends _ _ _ G B).
    cbn [started snd fst session flights state log audioHistory].
    now rewrite F. }
  destruct S1 as (Sf & Sl & Sh).
  set (m2 := run m1 edits1).
  destruct (edits_keep m1 edits1 E1) as (K1 & K2 & _ & _ & _ & K6 & _).
  fold m2 in K1, K2, K6.
  set (m3 := step m2 (SpeechEnded 0 url)).
  fold (run m3 edits2).
  assert (S3 : flights m3 = [AwaitMetadata (text (state (session m)))
                               (voiceSettings (state (session m))) url]
               /\ log (session m3) = log (session m2) ++ [CreateObjectURL url; NewAudio url]
               /\ audioHistory (state (session m3)) = audioHistory (state (session m2))).
  { subst m3. cbn [step]. rewrite K1, Sf. cbn [lookup list_lookup].
    rewrite onSpeechEnd_eq. cbn [resumed snd fst session flights state log].
    rewrite K1, Sf. repeat split. }
  destruct S3 as (Tf & Tl & Th).
  set (m4 := run m3 edits2).
  destruct (edits_keep m3 edits2 E2) as (L1 & L2 & _ & _ & _ & L6 & _).
  fold m4 in L1, L2, L6.
  cbn [step]. rewrite L1, Tf. cbn [lookup list_lookup].
  rewrite onLoadedMetadata_eq.
  cbn [resumed snd fst session flights state log audioHistory currentAudio
       isGenerating].
  rewrite L1, Tf, L6, Th, K6, Sh, L2, Tl, K2, Sl.
  repeat split. rewrite <- !app_assoc. reflexivity.
Qed.

Lemma generation_records_the_request_witness :
  let m := run initial [EditText "Hello"] in
  let a := newAudio (text (state (session m))) (voiceSettings (state (session m)))
             "blob:1" (Fin 2) 7 8 in
  let m' := run m ([Generate host1] ++ [EditText "Changed"]
                   ++ [SpeechEnded 0 "blob:1"] ++ [EditText "Changed again"]
                   ++ [MetadataLoaded 0 (Fin 2) 7 8]) in
  audioHistory (state (session m')) = a :: firstn 9 (audioHistory (state (session m)))
  /\ currentAudio (state (session m')) = Some a
  /\ isGenerating (state (session m')) = false
  /\ flights m' = []
  /\ log (session m')
     = log (session m) ++ preamble
       ++ [SpeechCancel; SpeakScheduled helloUtterance; CreateObjectURL "blob:1";
           NewAudio "blob:1"; Progress (Fin 0)].
Proof.
  apply (generation_records_the_request (run initial [EditText "Hello"]) host1
           helloUtterance [EditText "Changed"] [EditText "Changed again"]
           "blob:1" (Fin 2) 7 8); vm_compute; reflexivity.
Defined.

End FlowProperties.
